(** * AfriWrite Mini: the purchase-to-delivery pipeline of [app.js]

    A shallow embedding of the Express application in
    [src/afriwrite-mini/app.js] and the properties its specification states
    about it.

    - The SQLite database is three tables, each a list of rows in insertion
      order; the constraints of the schema (PRIMARY KEY, UNIQUE, FOREIGN KEY)
      are checked by the insert functions the way the statements of the
      routes meet them, NOT NULL where a route can bind a NULL.  The [created_at] columns are left out: no modelled
      route reads them.
    - The two directories [uploads/] and [purchases/] are finite maps from a
      file name to the bytes of the file.
    - A route handler is a function from the state, the session user of the
      request ([req.session.user]) and the request's inputs to the new state
      and the response.  Values the handler draws from outside ([uuidv4()],
      the bcrypt salt, the outcome of a disk write) are inputs of the request.
    - A string is the sequence of the bytes of its UTF-8 form, the form in
      which it arrives in a request and in which SQLite keeps TEXT.  A form
      field is a string or is missing: a form sends each of its text fields
      at most once and within the limits multer puts on them by default, and
      the publication form is sent as multipart data.
    - [bcryptjs], the parser and the writer of [pdf-lib], and
      [String.prototype.toLowerCase] of the runtime (the Unicode default case
      conversion) are outside the repository: they are variables of the
      section that holds the handlers.
    - A handler runs from its request to its response without another
      request in between.  File names are single path components, as the
      names built from [uuidv4()] values are.  The CSRF token of a request is
      taken to be valid, and what a view prints of the values it is rendered
      with is not modelled.  The routes that only list rows ([/], [/library],
      [/search]) and the GET forms are left out: they change nothing. *)

From Stdlib Require Import ZArith QArith List String Ascii.
From stdpp Require Import base strings gmap list.

Open Scope string_scope.

(** ** Strings *)

(** [s.startsWith(p)] *)
Fixpoint startsWith (p s : string) : bool :=
  match p, s with
  | EmptyString, _ => true
  | String a p', String b s' => bool_decide (a = b) && startsWith p' s'
  | String _ _, EmptyString => false
  end.

(** Truthiness of an optional form field: [!x] holds of [undefined] and of
    the empty string. *)
Definition falsy (x : option string) : bool :=
  match x with
  | None => true
  | Some s => bool_decide (s = "")
  end.

(** ** Bytes and results *)

Abbreviation bytes := (list Byte.byte).

Inductive Result (E A : Type) : Type :=
| Ok (a : A)
| Err (e : E).
Arguments Ok {E A} a.
Arguments Err {E A} e.

Definition rbind {E A B} (r : Result E A) (k : A -> Result E B) : Result E B :=
  match r with
  | Ok a => k a
  | Err e => Err e
  end.

Notation "'let*' x ':=' r 'in' k" := (rbind r (fun x => k))
  (at level 10, x name, r at level 100, k at level 200).

Fixpoint mapM {E A B} (f : A -> Result E B) (l : list A) : Result E (list B) :=
  match l with
  | [] => Ok []
  | x :: r =>
      let* y := f x in
      let* ys := mapM f r in
      Ok (y :: ys)
  end.

(** ** The catalog store: tables of [db.exec(CREATE TABLE ...)] *)

Record UserRow := mkUser {
  user_id : string;
  user_email : string;
  user_password_hash : string;
  user_name : string;
  user_role : string
}.

(** A number of JavaScript that [parseInt] can return and that is not [NaN]:
    a double with an integer value, given by that value, or an infinity. *)
Inductive JsNumber :=
| Finite (z : Z)
| Infinity (negative : bool).

(** [description] may be NULL; [price_ngn] holds the number the statement
    was given (a column of INTEGER affinity keeps a number it cannot turn
    into a 64-bit integer as it is). *)
Record BookRow := mkBook {
  book_id : string;
  book_author_id : string;
  book_title : string;
  book_description : option string;
  book_price_ngn : JsNumber;
  book_pdf_path : string;
  book_cover_path : option string
}.

Record OrderRow := mkOrder {
  order_id : string;
  order_buyer_id : string;
  order_book_id : string;
  order_status : string
}.

(** [req.session.user]: the object the register and login routes store. *)
Record SessionUser := mkSession {
  su_id : string;
  su_email : string;
  su_name : option string;
  su_role : string
}.

Record State := mkState {
  users : list UserRow;
  books : list BookRow;
  orders : list OrderRow;
  uploads : gmap string bytes;     (* UPLOAD_DIR *)
  purchases : gmap string bytes    (* PURCHASE_DIR *)
}.

Definition init : State := mkState [] [] [] ∅ ∅.

Definition set_users (s : State) (us : list UserRow) : State :=
  mkState us (books s) (orders s) (uploads s) (purchases s).
Definition set_books (s : State) (bs : list BookRow) : State :=
  mkState (users s) bs (orders s) (uploads s) (purchases s).
Definition set_orders (s : State) (os : list OrderRow) : State :=
  mkState (users s) (books s) os (uploads s) (purchases s).
Definition set_uploads (s : State) (fs : gmap string bytes) : State :=
  mkState (users s) (books s) (orders s) fs (purchases s).
Definition set_purchases (s : State) (fs : gmap string bytes) : State :=
  mkState (users s) (books s) (orders s) (uploads s) fs.

(** Errors of a statement, as [better-sqlite3] reports them in [e.code]. *)
Inductive SqliteError :=
| SQLITE_CONSTRAINT_PRIMARYKEY (column : string)
| SQLITE_CONSTRAINT_UNIQUE (column : string)
| SQLITE_CONSTRAINT_FOREIGNKEY.

Definition sqlite_message (e : SqliteError) : string :=
  match e with
  | SQLITE_CONSTRAINT_PRIMARYKEY c => "UNIQUE constraint failed: " +:+ c
  | SQLITE_CONSTRAINT_UNIQUE c => "UNIQUE constraint failed: " +:+ c
  | SQLITE_CONSTRAINT_FOREIGNKEY => "FOREIGN KEY constraint failed"
  end.

Definition user_id_taken (s : State) (id : string) : bool :=
  existsb (fun u => bool_decide (user_id u = id)) (users s).
Definition email_taken (s : State) (e : string) : bool :=
  existsb (fun u => bool_decide (user_email u = e)) (users s).
Definition book_id_taken (s : State) (id : string) : bool :=
  existsb (fun b => bool_decide (book_id b = id)) (books s).
Definition order_id_taken (s : State) (id : string) : bool :=
  existsb (fun o => bool_decide (order_id o = id)) (orders s).
Definition order_pair_taken (s : State) (buyer book : string) : bool :=
  existsb (fun o => bool_decide (order_buyer_id o = buyer)
                    && bool_decide (order_book_id o = book)) (orders s).

(** [INSERT INTO users ...]: [id] is the primary key and [email] is UNIQUE.
    (When a row violates both, which of the two SQLite reports is its own
    business; the state is unchanged either way and nothing below rests on
    the order.) *)
Definition insert_user (s : State) (r : UserRow) : Result SqliteError State :=
  if user_id_taken s (user_id r) then Err (SQLITE_CONSTRAINT_PRIMARYKEY "users.id")
  else if email_taken s (user_email r) then Err (SQLITE_CONSTRAINT_UNIQUE "users.email")
  else Ok (set_users s (users s ++ [r])).

(** [INSERT INTO books ...]: [id] is the primary key, [author_id] references
    [users(id)] (better-sqlite3 enforces foreign keys). *)
Definition insert_book (s : State) (r : BookRow) : Result SqliteError State :=
  if book_id_taken s (book_id r) then Err (SQLITE_CONSTRAINT_PRIMARYKEY "books.id")
  else if negb (user_id_taken s (book_author_id r)) then Err SQLITE_CONSTRAINT_FOREIGNKEY
  else Ok (set_books s (books s ++ [r])).

(** [INSERT OR IGNORE INTO orders ...]: a row that conflicts with the primary
    key or with [UNIQUE(buyer_id, book_id)] is skipped without an error; a
    row that is inserted must satisfy the two foreign keys. *)
Definition insert_or_ignore_order (s : State) (r : OrderRow) : Result SqliteError State :=
  if order_id_taken s (order_id r) || order_pair_taken s (order_buyer_id r) (order_book_id r)
  then Ok s
  else if negb (user_id_taken s (order_buyer_id r)) || negb (book_id_taken s (order_book_id r))
  then Err SQLITE_CONSTRAINT_FOREIGNKEY
  else Ok (set_orders s (orders s ++ [r])).

(** [SELECT * FROM users WHERE email=?], [.get]: the first matching row. *)
Definition select_user_by_email (s : State) (e : string) : option UserRow :=
  find (fun u => bool_decide (user_email u = e)) (users s).

(** [SELECT * FROM books WHERE id=?] *)
Definition select_book (s : State) (id : string) : option BookRow :=
  find (fun b => bool_decide (book_id b = id)) (books s).

(** [SELECT 1 FROM orders WHERE buyer_id=? AND book_id=? AND status='PAID']
    followed by [!!row]: the ownership test of the detail and download
    routes. *)
Definition ownsBook (s : State) (buyer book : string) : bool :=
  existsb (fun o => bool_decide (order_buyer_id o = buyer)
                    && bool_decide (order_book_id o = book)
                    && bool_decide (order_status o = "PAID")) (orders s).

(** The rows of [orders] for one (buyer, book) pair. *)
Definition orders_of (s : State) (buyer book : string) : list OrderRow :=
  List.filter (fun o => bool_decide (order_buyer_id o = buyer)
                   && bool_decide (order_book_id o = book)) (orders s).

(** ** Documents, as [pdf-lib] presents them

    A loaded document is its pages in order; a page has the size that
    [getSize()] returns and its [Contents] entry: absent, or the content
    streams of the page in drawing order. *)

Inductive Font := Helvetica.

Record DrawTextOptions := mkOptions {
  opt_x : Q;
  opt_y : Q;
  opt_size : Q;
  opt_font : Font;
  opt_color : Q * Q * Q;
  opt_opacity : Q
}.

Inductive ContentOp :=
| SourceContent (stream : bytes)
| PushGraphicsState                  (* the stream [q] *)
| PopGraphicsState                   (* the stream [Q] *)
| DrawnText (text : string) (o : DrawTextOptions).

Record PDFPage := mkPage {
  page_width : Q;
  page_height : Q;
  page_contents : option (list ContentOp)
}.

Record PDFDoc := mkDoc {
  doc_pages : list PDFPage;
  doc_fonts : list Font
}.

(** The page [addPage()] makes when it is given no size: A4, without a
    [Contents] entry. *)
Definition default_page : PDFPage := mkPage 595.28 841.89 None.

(** [PDFPageLeaf.wrapContentStreams]: the streams of an existing [Contents]
    array are put between a [q] and a [Q] stream; a page without the entry
    is left as it is. *)
Definition wrapContentStreams (c : option (list ContentOp)) : list ContentOp :=
  match c with
  | Some streams => (PushGraphicsState :: streams ++ [PopGraphicsState])%list
  | None => []
  end.

Definition getSize (p : PDFPage) : Q * Q := (page_width p, page_height p).
Definition getPages (d : PDFDoc) : list PDFPage := doc_pages d.
Definition embedFont (d : PDFDoc) (f : Font) : PDFDoc * Font :=
  (mkDoc (doc_pages d) (doc_fonts d ++ [f]), f).

(** Failures of preparing a buyer's copy. *)
Inductive PrepareError :=
| StorageFailure
| CorruptSource
| EncodingError.

(** ** Disk writes

    [fs.promises.writeFile(path, data)] opens [path] for writing, which
    creates or truncates the file, writes [data] into it and closes it.  The
    outcome of the call is an input: it completes, it fails before the file
    is opened, or it fails once the file is open and [n] bytes are on disk. *)
Inductive WriteOutcome :=
| Completes
| FailsBeforeOpen
| FailsAfter (n : nat).

Definition writeFile (dir : gmap string bytes) (name : string) (data : bytes)
    (w : WriteOutcome) : gmap string bytes * Result PrepareError unit :=
  match w with
  | Completes => (<[name := data]> dir, Ok tt)
  | FailsBeforeOpen => (dir, Err StorageFailure)
  | FailsAfter n => (<[name := take n data]> dir, Err StorageFailure)
  end.

(** [fs.promises.readFile(path)] *)
Definition readFile (dir : gmap string bytes) (name : string) : Result PrepareError bytes :=
  match dir !! name with
  | Some b => Ok b
  | None => Err StorageFailure
  end.

(** ** Requests and responses *)

Inductive Response :=
| Redirect (location : string)
| RedirectLogin (originalUrl : string)
    (* res.redirect("/login?next=" + encodeURIComponent(req.originalUrl)) *)
| Render (view : string) (error : option string)
| RenderBookDetail (book : BookRow) (author_name : string) (owns : bool)
| Status (code : Z) (body : string)
| Download (content : bytes) (filename : string)
    (* res.download(path, filename): the bytes of the file at [path], with
       [filename] as the name suggested to the client *)
| SendFile (content : bytes)
| NoRoute
    (* no middleware answered: the 404 of Express *)
| Unhandled.
    (* an exception left the handler *)

(** One part of a multipart form, as multer sees it, with the identifier
    [uuidv4()] returns when the part is named for storage. *)
Record FilePart := mkPart {
  fieldname : string;
  originalname : string;
  mimetype : string;
  content : bytes;
  part_uuid : string
}.

Inductive Request :=
| POST_register (uuid salt : string) (name email password role : option string)
| POST_login (email password next : option string)
| POST_logout
| POST_new_book (uuid : string) (title description price_ngn : option string)
    (parts : list FilePart)
| GET_book (id : string)
| POST_buy (id : string) (uuid : string) (w : WriteOutcome)
| GET_download (bookId : string)
| GET_covers (name : string)
| GET_files (name : string).

(** ** Helpers of the upload route *)

(** [path.extname] (POSIX): one scan from the end of the path to the start of
    its last component, then the test that rejects a component without a dot,
    one that only starts with its dot, and [".."]. *)
Record ExtScan := mkScan {
  startDot : option nat;
  startPart : nat;
  scan_end : option nat;
  matchedSlash : bool;
  preDotState : Z
}.

Fixpoint extname_scan (rev_path : list ascii) (st : ExtScan) : ExtScan :=
  match rev_path with
  | [] => st
  | c :: rest =>
      let i := length rest in
      if bool_decide (c = "/"%char) then
        if negb (matchedSlash st)
        then mkScan (startDot st) (i + 1) (scan_end st) (matchedSlash st) (preDotState st)
        else extname_scan rest st
      else
        let st1 :=
          match scan_end st with
          | None => mkScan (startDot st) (startPart st) (Some (i + 1)) false (preDotState st)
          | Some _ => st
          end in
        let st2 :=
          if bool_decide (c = "."%char) then
            match startDot st1 with
            | None => mkScan (Some i) (startPart st1) (scan_end st1) (matchedSlash st1) (preDotState st1)
            | Some _ =>
                if bool_decide (preDotState st1 = 1%Z) then st1
                else mkScan (startDot st1) (startPart st1) (scan_end st1) (matchedSlash st1) 1%Z
            end
          else
            match startDot st1 with
            | Some _ => mkScan (startDot st1) (startPart st1) (scan_end st1) (matchedSlash st1) (-1)%Z
            | None => st1
            end in
        extname_scan rest st2
  end.

Definition extname (path : string) : string :=
  let st := extname_scan (rev (list_ascii_of_string path)) (mkScan None 0 None true 0%Z) in
  match startDot st, scan_end st with
  | Some d, Some e =>
      if bool_decide (preDotState st = 0%Z)
         || (bool_decide (preDotState st = 1%Z) && bool_decide (d = e - 1)
             && bool_decide (d = startPart st + 1))
      then ""
      else substring d (e - d) path
  | _, _ => ""
  end.

(** [parseInt(s, 10)]: leading white space, an optional sign, then the
    longest run of decimal digits, and the double nearest to their value (V8
    rounds the whole run correctly); [None] is [NaN].

    White space is what [StrWhiteSpaceChar] lists, here by the bytes of each
    character: U+0009..U+000D and U+0020 in one byte, U+00A0 in two, and
    U+1680, U+2000..U+200A, U+2028, U+2029, U+202F, U+205F, U+3000 and
    U+FEFF in three. *)
Definition is_space (c : ascii) : bool :=
  let n := nat_of_ascii c in
  Nat.eqb n 32 || (Nat.leb 9 n && Nat.leb n 13).

Definition is_space2 (a b : ascii) : bool :=
  Nat.eqb (nat_of_ascii a) 194 && Nat.eqb (nat_of_ascii b) 160.

Definition is_space3 (a b c : ascii) : bool :=
  let x := nat_of_ascii a in
  let y := nat_of_ascii b in
  let z := nat_of_ascii c in
  (Nat.eqb x 225 && Nat.eqb y 154 && Nat.eqb z 128)
  || (Nat.eqb x 226 && Nat.eqb y 128
      && ((Nat.leb 128 z && Nat.leb z 138)
          || Nat.eqb z 168 || Nat.eqb z 169 || Nat.eqb z 175))
  || (Nat.eqb x 226 && Nat.eqb y 129 && Nat.eqb z 159)
  || (Nat.eqb x 227 && Nat.eqb y 128 && Nat.eqb z 128)
  || (Nat.eqb x 239 && Nat.eqb y 187 && Nat.eqb z 191).

Definition digit_of (c : ascii) : option Z :=
  let n := nat_of_ascii c in
  if Nat.leb 48 n && Nat.leb n 57 then Some (Z.of_nat (n - 48)) else None.

Fixpoint skip_spaces (s : string) : string :=
  match s with
  | String a r =>
      if is_space a then skip_spaces r
      else
        match r with
        | String b r2 =>
            if is_space2 a b then skip_spaces r2
            else
              match r2 with
              | String c r3 => if is_space3 a b c then skip_spaces r3 else s
              | EmptyString => s
              end
        | EmptyString => s
        end
  | EmptyString => s
  end.

Fixpoint digits_value (s : string) (acc : option Z) : option Z :=
  match s with
  | String c r =>
      match digit_of c with
      | Some d => digits_value r (Some (10 * default 0%Z acc + d)%Z)
      | None => acc
      end
  | EmptyString => acc
  end.

(** The double nearest to an integer, ties to the even significand: an
    integer below [2^53] in absolute value is a double; a longer one keeps its
    53 leading bits, rounded, and from [2^1024] on the result is an
    infinity. *)
Definition nearest_double (z : Z) : JsNumber :=
  let a := Z.abs z in
  let e := (Z.log2 a - 52)%Z in
  if (e <=? 0)%Z then Finite z
  else
    let q := Z.shiftr a e in
    let r := Z.land a (Z.ones e) in
    let half := Z.shiftl 1 (e - 1) in
    let q' := if (half <? r)%Z || ((r =? half)%Z && Z.odd q) then (q + 1)%Z else q in
    let m := Z.shiftl q' e in
    if (Z.shiftl 1 1024 <=? m)%Z then Infinity (z <? 0)%Z
    else Finite (Z.sgn z * m).

Definition parseInt (s : string) : option JsNumber :=
  match skip_spaces s with
  | String "-" r => (fun v => nearest_double (- v)) <$> digits_value r None
  | String "+" r => nearest_double <$> digits_value r None
  | r => nearest_double <$> digits_value r None
  end.

Definition MAX_PDF_SIZE : Z := 10 * 1024 * 1024.
Definition MAX_COVER_SIZE : Z := 2 * 1024 * 1024.

Definition size_of (b : bytes) : Z := Z.of_nat (length b).

(** ** The routes *)

Section Routes.

(** [String.prototype.toLowerCase] *)
Variable toLowerCase : string -> string.

(** [fileFilter] of the multer instance. *)
Definition fileFilter (f : FilePart) : Result string unit :=
  let ext := toLowerCase (extname (originalname f)) in
  if bool_decide (fieldname f = "pdf") then
    if negb (bool_decide (mimetype f = "application/pdf")) || negb (bool_decide (ext = ".pdf"))
    then Err "Invalid PDF file"
    else Ok tt
  else if bool_decide (fieldname f = "cover") then
    if negb (startsWith "image/" (mimetype f))
       || negb (bool_decide (ext ∈ [".png"; ".jpg"; ".jpeg"]))
    then Err "Invalid cover image"
    else Ok tt
  else Ok tt.

(** A file multer has stored: [file.fieldname], [file.filename], [file.size]. *)
Record StoredFile := mkStored {
  sf_fieldname : string;
  sf_filename : string;
  sf_size : Z
}.

Definition remove_files (names : list string) (dir : gmap string bytes) : gmap string bytes :=
  foldr (fun n d => delete n d) dir names.

(** [upload.fields([{name: "pdf", maxCount: 1}, {name: "cover", maxCount: 1}])]
    over the file parts of the form in their order.  A part without a file
    name (a file input left empty) is passed over.  A part of another field,
    or a second part of a field, is refused; then the filter; then the file
    is written under [uuidv4() + ext], and refused when its size reaches
    [fileSize].  On an error multer removes the files of this request, the
    refused one included. *)
Fixpoint bookUpload (dir : gmap string bytes) (stored : list StoredFile)
    (parts : list FilePart) : gmap string bytes * Result string (list StoredFile) :=
  match parts with
  | [] => (dir, Ok stored)
  | f :: rest =>
      if bool_decide (originalname f = "") then bookUpload dir stored rest
      else
        let undo := remove_files (map sf_filename stored) dir in
        if negb (bool_decide (fieldname f ∈ ["pdf"; "cover"]))
           || existsb (fun sf => bool_decide (sf_fieldname sf = fieldname f)) stored
        then (undo, Err "Unexpected field")
        else
          match fileFilter f with
          | Err m => (undo, Err m)
          | Ok _ =>
              let filename := part_uuid f +:+ extname (originalname f) in
              if (MAX_PDF_SIZE <=? size_of (content f))%Z
              then (delete filename undo, Err "File too large")
              else
                bookUpload (<[filename := content f]> dir)
                  (stored ++ [mkStored (fieldname f) filename (size_of (content f))]) rest
          end
  end.

Definition file_of_field (field : string) (stored : list StoredFile) : option StoredFile :=
  find (fun sf => bool_decide (sf_fieldname sf = field)) stored.

(** ** The buyer's copy *)

(** The text stamped on each page:
    [`Purchased by ${buyerEmail} | Book ${book.title} | Order ${orderId}`]. *)
Definition watermark_text (buyerEmail title orderId : string) : string :=
  "Purchased by " +:+ buyerEmail +:+ " | Book " +:+ title +:+ " | Order " +:+ orderId.

(** The options of the [drawText] call. *)
Definition watermark_options (font : Font) : DrawTextOptions :=
  mkOptions 36 20 10 font (0.6, 0.6, 0.6)%Q 0.6.

(** [path.join(PURCHASE_DIR, `${user.id}_${book.id}.pdf`)], as a name in the
    purchases directory. *)
Definition artifact_name (buyer book : string) : string :=
  buyer +:+ "_" +:+ book +:+ ".pdf".

(** [bcryptjs]: [hash] with the salt it draws, and [compare]. *)
Variable bcrypt_hash : string -> string -> string.
Variable bcrypt_compare : string -> string -> bool.

(** [pdf-lib]: the parser behind [PDFDocument.load] ([None] when the bytes
    do not parse), the writer behind [pdfDoc.save], and whether the embedded
    Helvetica can encode a text ([drawText] throws when it cannot). *)
Variable PDFDocument_load : bytes -> option PDFDoc.
Variable PDFWriter_serialize : PDFDoc -> bytes.
Variable Helvetica_encodes : string -> bool.

(** [page.drawText(text, options)]: the text is encoded; the page is
    normalized, which wraps the streams it has; the new stream is added
    after them. *)
Definition drawText (p : PDFPage) (text : string) (o : DrawTextOptions)
    : Result PrepareError PDFPage :=
  if Helvetica_encodes text
  then Ok (mkPage (page_width p) (page_height p)
             (Some (wrapContentStreams (page_contents p) ++ [DrawnText text o])%list))
  else Err EncodingError.

(** [pdfDoc.save()]: a document without pages is given one ([addDefaultPage]
    is on unless the caller turns it off), then the document is written. *)
Definition PDFDocument_save (d : PDFDoc) : bytes :=
  PDFWriter_serialize
    (mkDoc (match doc_pages d with
            | [] => [default_page]
            | pages => pages
            end)
       (doc_fonts d)).

(** The body of [pages.forEach((p, idx) => ...)]: the size of the page is
    read, the text is drawn with the options of the call. *)
Definition stamp_page (font : Font) (text : string) (p : PDFPage)
    : Result PrepareError PDFPage :=
  let '(width, height) := getSize p in
  drawText p text (watermark_options font).

(** Lines 254-266 of the buy route: read the source, load it, embed the
    font, stamp every page, save. *)
Definition prepare_copy (s : State) (book : BookRow) (buyerEmail orderId : string)
    : Result PrepareError bytes :=
  let* pdfBytes := readFile (uploads s) (book_pdf_path book) in
  let* pdfDoc :=
    match PDFDocument_load pdfBytes with
    | Some d => Ok d
    | None => Err CorruptSource
    end in
  let '(pdfDoc, font) := embedFont pdfDoc Helvetica in
  let text := watermark_text buyerEmail (book_title book) orderId in
  let* pages := mapM (stamp_page font text) (getPages pdfDoc) in
  Ok (PDFDocument_save (mkDoc pages (doc_fonts pdfDoc))).

(** [app.post("/register", ...)] *)
Definition register (s : State) (sess : option SessionUser) (uuid salt : string)
    (name email password role : option string)
    : State * option SessionUser * Response :=
  match email, password with
  | Some e, Some pw =>
      if falsy email || falsy password
      then (s, sess, Render "register" (Some "Email and password are required"))
      else
        let id := uuid in
        let hash := bcrypt_hash salt pw in
        let role' := if bool_decide (role = Some "WRITER") then "WRITER" else "READER" in
        match insert_user s (mkUser id (toLowerCase e) hash (default "" name) role') with
        | Ok s' => (s', Some (mkSession id (toLowerCase e) name role'), Redirect "/")
        | Err err =>
            (s, sess,
             Render "register"
               (Some ("Could not register: " +:+
                      match err with
                      | SQLITE_CONSTRAINT_UNIQUE _ => "Email already used"
                      | _ => sqlite_message err
                      end)))
        end
  | _, _ => (s, sess, Render "register" (Some "Email and password are required"))
  end.

(** [app.post("/login", ...)] *)
Definition login (s : State) (sess : option SessionUser)
    (email password next : option string)
    : State * option SessionUser * Response :=
  match email with
  | None => (s, sess, Unhandled)
  | Some e =>
      match select_user_by_email s (toLowerCase e) with
      | None => (s, sess, Render "login" (Some "Invalid credentials"))
      | Some user =>
          match password with
          | None => (s, sess, Unhandled)
          | Some pw =>
              if bcrypt_compare pw (user_password_hash user)
              then (s,
                    Some (mkSession (user_id user) (user_email user)
                            (Some (user_name user)) (user_role user)),
                    Redirect (if falsy next then "/" else default "/" next))
              else (s, sess, Render "login" (Some "Invalid credentials"))
          end
      end
  end.

(** [app.post("/writer/books/new", requireRole("WRITER"), ...)]: the role
    check, the upload, then the handler.  A field that is missing is bound
    as NULL and a price that is [NaN] is stored as NULL: [description] may
    be NULL, while for [title] and [price_ngn] the NOT NULL constraint makes
    [.run(...)] throw, as a failing insert does. *)
Definition new_book (s : State) (sess : option SessionUser) (uuid : string)
    (title description price_ngn : option string) (parts : list FilePart)
    : State * Response :=
  match sess with
  | None => (s, Redirect "/login")
  | Some user =>
      if negb (bool_decide (su_role user = "WRITER")) then (s, Status 403 "Forbidden")
      else
        match bookUpload (uploads s) [] parts with
        | (dir, Err m) => (set_uploads s dir, Render "new_book" (Some m))
        | (dir, Ok stored) =>
            let s1 := set_uploads s dir in
            match file_of_field "pdf" stored with
            | None => (s1, Render "new_book" (Some "PDF is required"))
            | Some pdf =>
                let cover := file_of_field "cover" stored in
                let insert :=
                  match title,
                        parseInt (if falsy price_ngn then "0" else default "0" price_ngn) with
                  | Some t, Some price =>
                      match insert_book s1
                              (mkBook uuid (su_id user) t description price (sf_filename pdf)
                                 (match cover with
                                  | Some c =>
                                      if falsy (Some (sf_filename c)) then None
                                      else Some (sf_filename c)
                                  | None => None
                                  end)) with
                      | Ok s2 => (s2, Redirect ("/books/" +:+ uuid))
                      | Err _ => (s1, Unhandled)
                      end
                  | _, _ => (s1, Unhandled)
                  end in
                match cover with
                | Some c =>
                    if (MAX_COVER_SIZE <? sf_size c)%Z
                    then (set_uploads s
                            (delete (sf_filename pdf) (delete (sf_filename c) dir)),
                          Render "new_book" (Some "Cover image too large"))
                    else insert
                | None => insert
                end
            end
        end
  end.

(** [app.get("/books/:id", ...)]: the book joined with its author, and
    whether the session user owns it. *)
Definition book_detail (s : State) (sess : option SessionUser) (id : string) : Response :=
  match select_book s id with
  | None => Status 404 "Not found"
  | Some book =>
      match find (fun u => bool_decide (user_id u = book_author_id book)) (users s) with
      | None => Status 404 "Not found"
      | Some author =>
          let owns :=
            match sess with
            | Some user => ownsBook s (su_id user) (book_id book)
            | None => false
            end in
          RenderBookDetail book (user_name author) owns
      end
  end.

(** [app.post("/buy/:id", requireAuth, ...)] *)
Definition buy (s : State) (sess : option SessionUser) (id : string)
    (uuid : string) (w : WriteOutcome) : State * Response :=
  match sess with
  | None => (s, RedirectLogin ("/buy/" +:+ id))
  | Some user =>
      match select_book s id with
      | None => (s, Status 404 "Not found")
      | Some book =>
          let orderId := uuid in
          let s1 :=
            match insert_or_ignore_order s
                    (mkOrder orderId (su_id user) (book_id book) "PAID") with
            | Ok s' => s'
            | Err _ => s   (* catch (e) { ignore duplicates } *)
            end in
          let buyerEmail := su_email user in
          let wmOutPath := artifact_name (su_id user) (book_id book) in
          match prepare_copy s1 book buyerEmail orderId with
          | Err _ => (s1, Status 500 "Failed to prepare purchase")
          | Ok stamped =>
              match writeFile (purchases s1) wmOutPath stamped w with
              | (dir, Ok _) => (set_purchases s1 dir, Redirect "/library")
              | (dir, Err _) => (set_purchases s1 dir, Status 500 "Failed to prepare purchase")
              end
          end
      end
  end.

(** [app.get("/download/:bookId", requireAuth, ...)] *)
Definition download (s : State) (sess : option SessionUser) (bookId : string) : Response :=
  match sess with
  | None => RedirectLogin ("/download/" +:+ bookId)
  | Some user =>
      if negb (ownsBook s (su_id user) bookId)
      then Status 403 "You do not own this book"
      else
        let wmOutPath := artifact_name (su_id user) bookId in
        match purchases s !! wmOutPath with
        | None => Status 404 "Your copy is not ready"
        | Some file => Download file "your-book.pdf"
        end
  end.

(** [express.static(UPLOAD_DIR)], mounted at [/covers] and at [/files]:
    the file of that name in the directory, whoever asks; names that start
    with a dot are not served. *)
Definition static_uploads (s : State) (name : string) : Response :=
  if startsWith "." name then NoRoute
  else
    match uploads s !! name with
    | Some file => SendFile file
    | None => NoRoute
    end.

(** One request, with the session of its sender. *)
Definition handle (s : State) (sess : option SessionUser) (r : Request)
    : State * option SessionUser * Response :=
  match r with
  | POST_register uuid salt name email password role =>
      register s sess uuid salt name email password role
  | POST_login email password next => login s sess email password next
  | POST_logout => (s, None, Redirect "/")
  | POST_new_book uuid title description price_ngn parts =>
      let '(s', resp) := new_book s sess uuid title description price_ngn parts in
      (s', sess, resp)
  | GET_book id => (s, sess, book_detail s sess id)
  | POST_buy id uuid w =>
      let '(s', resp) := buy s sess id uuid w in (s', sess, resp)
  | GET_download bookId => (s, sess, download s sess bookId)
  | GET_covers name => (s, sess, static_uploads s name)
  | GET_files name => (s, sess, static_uploads s name)
  end.

(** A run of the server: requests of any clients, each with the session it
    presents, handled one after the other. *)
Fixpoint run (s : State) (rs : list (option SessionUser * Request)) : State :=
  match rs with
  | [] => s
  | (sess, r) :: rest => run (handle s sess r).1.1 rest
  end.

End Routes.

(** ** Vocabulary of the statements *)

(** The state a purchase continues with after its
    [try { INSERT OR IGNORE ... } catch (e) {}]. *)
Definition record_order (s : State) (buyer book uuid : string) : State :=
  match insert_or_ignore_order s (mkOrder uuid buyer book "PAID") with
  | Ok s' => s'
  | Err _ => s
  end.

(** The constraints of the [orders] table that the purchase theorems use:
    [UNIQUE(buyer_id, book_id)], and the only status the routes write. *)
Definition order_pairs_unique (s : State) : Prop :=
  forall buyer book, length (orders_of s buyer book) <= 1.

Definition orders_paid (s : State) : Prop :=
  Forall (fun o => order_status o = "PAID") (orders s).

(** A page after the watermark has been drawn on it: its size as before,
    the streams it had between [q] and [Q], then the text. *)
Definition stamped_page (font : Font) (text : string) (p : PDFPage) : PDFPage :=
  mkPage (page_width p) (page_height p)
    (Some (wrapContentStreams (page_contents p)
           ++ [DrawnText text (watermark_options font)])%list).

(** The row a registration inserts, given the lower-case form of the
    submitted email and the hash bcrypt returned. *)
Definition registered_row (uuid hash : string) (name : option string)
    (lower_email : string) (role : option string) : UserRow :=
  mkUser uuid lower_email hash (default "" name)
    (if bool_decide (role = Some "WRITER") then "WRITER" else "READER").

(** The constraints of the [users] table that the routes maintain: every
    stored email is the lower-case form [toLowerCase] gave for a submitted
    one, and no two rows have the same email. *)
Definition emails_lowercase (toLowerCase : string -> string) (s : State) : Prop :=
  Forall (fun u => exists e, user_email u = toLowerCase e) (users s).

Definition emails_unique (s : State) : Prop :=
  NoDup (user_email <$> users s).

(** The session user of a request, if any, is a row of [users]. *)
Definition session_registered (s : State) (sess : option SessionUser) : Prop :=
  match sess with
  | Some user => user_id_taken s (su_id user) = true
  | None => True
  end.

(** The parts of a form that multer takes up: those with a file name. *)
Definition named_parts (parts : list FilePart) : list FilePart :=
  List.filter (fun f => negb (bool_decide (originalname f = ""))) parts.

(** The name the [filename] callback of the disk storage gives a part, the
    record multer keeps of the stored file, and the directory after a list
    of parts has been written to it. *)
Definition stored_name (f : FilePart) : string :=
  part_uuid f +:+ extname (originalname f).

Definition stored_of (f : FilePart) : StoredFile :=
  mkStored (fieldname f) (stored_name f) (size_of (content f)).

Definition store_parts (dir : gmap string bytes) (parts : list FilePart)
    : gmap string bytes :=
  foldl (fun d f => <[stored_name f := content f]> d) dir parts.

(** The roles the register route writes. *)
Definition roles_valid (s : State) : Prop :=
  Forall (fun u => user_role u = "WRITER" \/ user_role u = "READER") (users s).

(** The primary keys of the three tables. *)
Definition keys_unique (s : State) : Prop :=
  NoDup (user_id <$> users s) /\
  NoDup (book_id <$> books s) /\
  NoDup (order_id <$> orders s).

(** The foreign keys of [books] and [orders]. *)
Definition references_hold (s : State) : Prop :=
  Forall (fun b => user_id_taken s (book_author_id b) = true) (books s) /\
  Forall (fun o => user_id_taken s (order_buyer_id o) = true /\
                   book_id_taken s (order_book_id o) = true) (orders s).

(** ** A sample installation

    Stand-ins for the libraries and a few requests, to run the routes on
    concrete data.  The sample lower-casing maps the letters [A]..[Z] to
    [a]..[z] and keeps every other byte, as the default case conversion does
    on strings of ASCII characters.  The sample document format is one byte
    [%] followed by one byte per page: [L] is a landscape page, [S] a very
    small one, any other byte a portrait page.  Writing a document gives [%]
    and, per page, [+] when text has been drawn on it and [-] otherwise. *)

Definition is_upper (c : ascii) : bool :=
  let n := nat_of_ascii c in Nat.leb 65 n && Nat.leb n 90.

Definition lower_char (c : ascii) : ascii :=
  if is_upper c then ascii_of_nat (nat_of_ascii c + 32) else c.

Fixpoint sample_toLowerCase (s : string) : string :=
  match s with
  | EmptyString => EmptyString
  | String c r => String (lower_char c) (sample_toLowerCase r)
  end.

Definition sample_hash (salt password : string) : string :=
  password +:+ "$" +:+ salt.

Definition sample_compare (password hash : string) : bool :=
  startsWith (password +:+ "$") hash.

Definition sample_page (b : Byte.byte) : PDFPage :=
  if Byte.eqb b Byte.x4c then mkPage 792 612 (Some [SourceContent [b]])
  else if Byte.eqb b Byte.x53 then mkPage 30 15 (Some [SourceContent [b]])
  else mkPage 612 792 (Some [SourceContent [b]]).

Definition sample_load (b : bytes) : option PDFDoc :=
  match b with
  | Byte.x25 :: rest => Some (mkDoc (sample_page <$> rest) [])
  | _ => None
  end.

Definition has_text (p : PDFPage) : bool :=
  existsb (fun op => match op with DrawnText _ _ => true | _ => false end)
    (default [] (page_contents p)).

Definition sample_serialize (d : PDFDoc) : bytes :=
  Byte.x25 :: ((fun p => if has_text p then Byte.x2b else Byte.x2d) <$> doc_pages d).

Definition sample_encodes (text : string) : bool :=
  forallb (fun c => Nat.ltb (nat_of_ascii c) 128) (list_ascii_of_string text).

Definition sample_handle :=
  handle sample_toLowerCase sample_hash sample_compare sample_load sample_serialize
    sample_encodes.
Definition sample_run :=
  run sample_toLowerCase sample_hash sample_compare sample_load sample_serialize
    sample_encodes.
Definition sample_buy := buy sample_load sample_serialize sample_encodes.

Definition writer_id : string := "4f0c2a9e-6d1b-4c57-9a3e-1b2c3d4e5f60".
Definition reader_id : string := "a81bc81b-dead-4e5d-abff-90865d1e13b1".
Definition tales_id : string := "0b6f3c52-7e21-4f0a-8d43-5c1e9a7b2d10".
Definition tales_file : string := "c9bf9e57-1685-4c89-bafb-ff5af830be8a".
Definition first_order : string := "16fd2706-8baf-433b-82eb-8c7fada847da".
Definition second_order : string := "6ec0bd7f-11c0-43da-975e-2a8ad9ebae0b".

(** A two-page source: a portrait page and a landscape page. *)
Definition tales_pdf : bytes := [Byte.x25; Byte.x50; Byte.x4c].

Definition writer_session : SessionUser :=
  mkSession writer_id "ada@example.com" (Some "Ada") "WRITER".
Definition reader_session : SessionUser :=
  mkSession reader_id "bola@example.com" (Some "Bola") "READER".

(** The row of the book, once published. *)
Definition tales : BookRow :=
  mkBook tales_id writer_id "Tales" (Some "Short stories") (Finite 1500)
    (tales_file +:+ ".PDF") None.

(** A writer registers and publishes one book; a reader registers. *)
Definition catalog : State :=
  sample_run init
    [ (None, POST_register writer_id "s1" (Some "Ada") (Some "Ada@Example.com")
               (Some "correct horse") (Some "WRITER"));
      (Some writer_session,
       POST_new_book tales_id (Some "Tales") (Some "Short stories") (Some "1500")
         [mkPart "pdf" "Tales.PDF" "application/pdf" tales_pdf tales_file]);
      (None, POST_register reader_id "s2" (Some "Bola") (Some "bola@example.com")
               (Some "battery staple") None) ].

(** The reader has bought the book and the copy is on disk. *)
Definition after_purchase : State :=
  sample_run catalog [(Some reader_session, POST_buy tales_id first_order Completes)].

(** The reader has bought the book but the write failed before the file
    was opened. *)
Definition after_failed_purchase : State :=
  sample_run catalog [(Some reader_session, POST_buy tales_id first_order FailsBeforeOpen)].

(** The writer has registered and nothing is published yet. *)
Definition writer_registered : State :=
  sample_run init
    [ (None, POST_register writer_id "s1" (Some "Ada") (Some "Ada@Example.com")
               (Some "correct horse") (Some "WRITER")) ].

Definition cover_file : string := "1b9d6bcd-bbfd-4b2d-9b5d-ab8dfbbd4bed".

Definition tales_part : FilePart :=
  mkPart "pdf" "Tales.PDF" "application/pdf" tales_pdf tales_file.

Definition cover_part : FilePart :=
  mkPart "cover" "front.Jpg" "image/jpeg" [Byte.xff; Byte.xd8; Byte.xff] cover_file.

(** A cover of 2 MB and one byte. *)
Definition oversized_cover_part : FilePart :=
  mkPart "cover" "front.png" "image/png" (repeat Byte.x00 (Nat.pow 2 21 + 1)) cover_file.

(** A part for the field [pdf] without a file name, as a browser sends for
    a file input that was left empty. *)
Definition empty_pdf_input : FilePart :=
  mkPart "pdf" "" "application/octet-stream" [] tales_file.

(** A second stand-in for the reader and the writer of [pdf-lib], which
    loses nothing of the pages: the writer numbers the lists of pages and
    writes the number of the document's list in binary, one byte per digit;
    the reader finds the list of that number.  Sizes are kept as the
    fractions they are given as, streams of the source as their bytes. *)
Abbreviation QRepr := (Z * positive)%type.
Abbreviation OptionsRepr :=
  (QRepr * QRepr * QRepr * (QRepr * QRepr * QRepr) * QRepr)%type.
Abbreviation OpRepr := (list N + (bool + string * OptionsRepr))%type.
Abbreviation PageRepr := (QRepr * QRepr * option (list OpRepr))%type.

Definition Q_repr (q : Q) : QRepr := (Qnum q, Qden q).
Definition repr_Q (r : QRepr) : Q := Qmake r.1 r.2.

Definition options_repr (o : DrawTextOptions) : OptionsRepr :=
  (Q_repr (opt_x o), Q_repr (opt_y o), Q_repr (opt_size o),
   (Q_repr (opt_color o).1.1, Q_repr (opt_color o).1.2, Q_repr (opt_color o).2),
   Q_repr (opt_opacity o)).

Definition repr_options (r : OptionsRepr) : DrawTextOptions :=
  let '(x, y, size, (red, green, blue), opacity) := r in
  mkOptions (repr_Q x) (repr_Q y) (repr_Q size) Helvetica
    (repr_Q red, repr_Q green, repr_Q blue) (repr_Q opacity).

Definition op_repr (op : ContentOp) : OpRepr :=
  match op with
  | SourceContent stream => inl (Byte.to_N <$> stream)
  | PushGraphicsState => inr (inl true)
  | PopGraphicsState => inr (inl false)
  | DrawnText text o => inr (inr (text, options_repr o))
  end.

Definition repr_op (r : OpRepr) : ContentOp :=
  match r with
  | inl stream => SourceContent ((fun n => default Byte.x00 (Byte.of_N n)) <$> stream)
  | inr (inl true) => PushGraphicsState
  | inr (inl false) => PopGraphicsState
  | inr (inr (text, o)) => DrawnText text (repr_options o)
  end.

Definition page_repr (p : PDFPage) : PageRepr :=
  (Q_repr (page_width p), Q_repr (page_height p),
   (fun streams : list ContentOp => op_repr <$> streams) <$> page_contents p).

Definition repr_page (r : PageRepr) : PDFPage :=
  mkPage (repr_Q r.1.1) (repr_Q r.1.2)
    ((fun streams : list OpRepr => repr_op <$> streams) <$> r.2).

Fixpoint binary_digits (n : positive) : bytes :=
  match n with
  | xH => []
  | xO m => Byte.x30 :: binary_digits m
  | xI m => Byte.x31 :: binary_digits m
  end.

Fixpoint of_binary_digits (b : bytes) : positive :=
  match b with
  | [] => xH
  | Byte.x31 :: r => xI (of_binary_digits r)
  | _ :: r => xO (of_binary_digits r)
  end.

Definition lossless_serialize (d : PDFDoc) : bytes :=
  binary_digits (encode (page_repr <$> doc_pages d)).

Definition lossless_load (b : bytes) : option PDFDoc :=
  (fun pages : list PageRepr => mkDoc (repr_page <$> pages) [])
    <$> decode (of_binary_digits b).

Definition lossless_buy := buy lossless_load lossless_serialize sample_encodes.

(** A source with a portrait page that has a content stream and a landscape
    page that has none, and a source without pages. *)
Definition mixed_source : PDFDoc :=
  mkDoc [mkPage 612 792 (Some [SourceContent [Byte.x50]]); mkPage 792 612 None] [].

Definition empty_source : PDFDoc := mkDoc [] [].

(** The sample catalog with the file of the book replaced by a document in
    the lossless format. *)
Definition shelf (source : PDFDoc) : State :=
  set_uploads catalog
    (<[tales_file +:+ ".PDF" := lossless_serialize source]> (uploads catalog)).

(** * Properties *)

(** ** Tests on tables *)

Lemma existsb_field {A} (f : A -> string) (k : string) (l : list A) :
  existsb (fun x => bool_decide (f x = k)) l = true <-> k ∈ f <$> l.
Proof.
  rewrite existsb_exists, list_elem_of_fmap. split.
  - intros (x & Hin & Hx). apply bool_decide_eq_true in Hx.
    exists x. split; [now symmetry | now apply list_elem_of_In].
  - intros (x & -> & Hin). exists x. split; [now apply list_elem_of_In|].
    now apply bool_decide_eq_true.
Qed.

Lemma existsb_field_false {A} (f : A -> string) (k : string) (l : list A) :
  existsb (fun x => bool_decide (f x = k)) l = false <-> k ∉ f <$> l.
Proof.
  rewrite <- existsb_field. now rewrite not_true_iff_false.
Qed.

Lemma ownsBook_spec (s : State) (buyer book : string) :
  ownsBook s buyer book = true <->
  exists o, o ∈ orders s /\ order_buyer_id o = buyer /\ order_book_id o = book
            /\ order_status o = "PAID".
Proof.
  unfold ownsBook. rewrite existsb_exists. split.
  - intros (o & Hin & Ho). apply andb_prop in Ho as [Ho Hp].
    apply andb_prop in Ho as [Hb Hk].
    apply bool_decide_eq_true in Hb, Hk, Hp.
    exists o. now rewrite list_elem_of_In.
  - intros (o & Hin & Hb & Hk & Hp). exists o. split; [now apply list_elem_of_In|].
    rewrite !andb_true_iff, !bool_decide_eq_true. auto.
Qed.

Lemma orders_of_spec (s : State) (buyer book : string) (o : OrderRow) :
  o ∈ orders_of s buyer book <->
  o ∈ orders s /\ order_buyer_id o = buyer /\ order_book_id o = book.
Proof.
  unfold orders_of. rewrite !list_elem_of_In, filter_In, andb_true_iff,
    !bool_decide_eq_true. tauto.
Qed.

Lemma order_pair_taken_spec (s : State) (buyer book : string) :
  order_pair_taken s buyer book = false <-> orders_of s buyer book = [].
Proof.
  unfold order_pair_taken, orders_of. induction (orders s) as [|o l IH]; simpl; [tauto|].
  destruct (bool_decide (order_buyer_id o = buyer) && bool_decide (order_book_id o = book));
    simpl; [split; discriminate | exact IH].
Qed.

Section Delivery.

Variable s : State.
Variable user : SessionUser.
Variable bookId : string.

(** C4. A requester with no PAID order for the book is refused with 403,
    whatever the purchases directory holds: the handler looks the order up
    in the table on every call and only then at the file. *)
Theorem download_forbidden_without_order :
  (forall o, o ∈ orders s -> order_buyer_id o = su_id user ->
             order_book_id o = bookId -> order_status o <> "PAID") ->
  download s (Some user) bookId = Status 403 "You do not own this book".
Proof.
  intros Hnone. unfold download.
  destruct (ownsBook s (su_id user) bookId) eqn:Hown; [|reflexivity].
  apply ownsBook_spec in Hown as (o & Hin & Hb & Hk & Hp).
  now destruct (Hnone o Hin Hb Hk).
Qed.

(** C5. A requester with a PAID order for the book is never refused with
    403: with no file persisted for the pair the answer is the 404 "not
    ready", and with a file it is that file under the fixed name. *)
Theorem download_owner_not_ready :
  (exists o, o ∈ orders s /\ order_buyer_id o = su_id user /\
             order_book_id o = bookId /\ order_status o = "PAID") ->
  match purchases s !! artifact_name (su_id user) bookId with
  | None => download s (Some user) bookId = Status 404 "Your copy is not ready"
  | Some file => download s (Some user) bookId = Download file "your-book.pdf"
  end.
Proof.
  intros Hown. apply ownsBook_spec in Hown. unfold download. rewrite Hown. simpl.
  now destruct (purchases s !! artifact_name (su_id user) bookId).
Qed.

End Delivery.

(** ** Recording an order *)

Lemma select_book_some (s : State) (id : string) (book : BookRow) :
  select_book s id = Some book ->
  book ∈ books s /\ book_id book = id /\ book_id_taken s id = true.
Proof.
  intros H. apply find_some in H as [Hin Hid]. apply bool_decide_eq_true in Hid.
  apply list_elem_of_In in Hin. repeat split; [exact Hin | exact Hid |].
  apply existsb_field, list_elem_of_fmap. now exists book.
Qed.

Lemma select_book_none (s : State) (id : string) :
  select_book s id = None -> book_id_taken s id = false.
Proof.
  intros H. apply existsb_field_false. intros Hin.
  apply list_elem_of_fmap in Hin as (b & -> & Hb).
  apply list_elem_of_In in Hb.
  pose proof (find_none _ _ H b Hb) as Hn. simpl in Hn.
  now apply bool_decide_eq_false in Hn.
Qed.

Lemma record_order_cases (s : State) (buyer book uuid : string) :
  (record_order s buyer book uuid = s) \/
  (order_id_taken s uuid = false /\ order_pair_taken s buyer book = false /\
   user_id_taken s buyer = true /\ book_id_taken s book = true /\
   record_order s buyer book uuid
   = set_orders s (orders s ++ [mkOrder uuid buyer book "PAID"])).
Proof.
  unfold record_order, insert_or_ignore_order. simpl.
  destruct (order_id_taken s uuid); [now left|].
  destruct (order_pair_taken s buyer book); [now left|]. simpl.
  destruct (user_id_taken s buyer); [|now left].
  destruct (book_id_taken s book); [|now left].
  right. auto.
Qed.

Lemma record_order_frame (s : State) (buyer book uuid : string) :
  users (record_order s buyer book uuid) = users s /\
  books (record_order s buyer book uuid) = books s /\
  uploads (record_order s buyer book uuid) = uploads s /\
  purchases (record_order s buyer book uuid) = purchases s.
Proof.
  destruct (record_order_cases s buyer book uuid) as [-> | (_ & _ & _ & _ & ->)]; auto.
Qed.

Lemma orders_of_snoc (s : State) (o : OrderRow) (buyer book : string) :
  orders_of (set_orders s (orders s ++ [o])) buyer book
  = (orders_of s buyer book
     ++ (if bool_decide (order_buyer_id o = buyer) && bool_decide (order_book_id o = book)
         then [o] else []))%list.
Proof.
  unfold orders_of. simpl. rewrite List.filter_app. simpl.
  now destruct (bool_decide (order_buyer_id o = buyer) && bool_decide (order_book_id o = book)).
Qed.

(** After the insert, a registered buyer of an existing book has exactly one
    order row for the pair, provided the table had at most one before and the
    new identifier is not the key of another row. *)
Lemma record_order_one_row (s : State) (buyer book uuid : string) :
  order_pairs_unique s ->
  user_id_taken s buyer = true ->
  book_id_taken s book = true ->
  order_id_taken s uuid = false \/ order_pair_taken s buyer book = true ->
  length (orders_of (record_order s buyer book uuid) buyer book) = 1.
Proof.
  intros Huniq Hu Hb Hfresh.
  unfold record_order, insert_or_ignore_order. simpl.
  destruct (order_pair_taken s buyer book) eqn:Hpair.
  - rewrite orb_true_r.
    specialize (Huniq buyer book).
    destruct (orders_of s buyer book) eqn:Ho.
    + apply order_pair_taken_spec in Ho. congruence.
    + simpl in *. lia.
  - destruct Hfresh as [Hfresh | ?]; [|discriminate].
    rewrite Hfresh, Hu, Hb. simpl. rewrite orders_of_snoc. simpl.
    rewrite !bool_decide_eq_true_2 by reflexivity. simpl.
    apply order_pair_taken_spec in Hpair. now rewrite Hpair.
Qed.

Lemma record_order_pairs_unique (s : State) (buyer book uuid : string) :
  order_pairs_unique s -> order_pairs_unique (record_order s buyer book uuid).
Proof.
  intros Huniq.
  destruct (record_order_cases s buyer book uuid) as [-> | (_ & Hpair & _ & _ & ->)];
    [exact Huniq|].
  intros b k. rewrite orders_of_snoc. simpl.
  destruct (bool_decide (buyer = b)) eqn:Hb; simpl.
  - destruct (bool_decide (book = k)) eqn:Hk; simpl.
    + apply bool_decide_eq_true in Hb, Hk. subst.
      apply order_pair_taken_spec in Hpair. rewrite Hpair. simpl. lia.
    + rewrite app_nil_r. apply Huniq.
  - rewrite app_nil_r. apply Huniq.
Qed.

Lemma record_order_paid (s : State) (buyer book uuid : string) :
  orders_paid s -> orders_paid (record_order s buyer book uuid).
Proof.
  intros Hpaid.
  destruct (record_order_cases s buyer book uuid) as [-> | (_ & _ & _ & _ & ->)];
    [exact Hpaid|].
  unfold orders_paid. simpl. apply Forall_app. split; [exact Hpaid|].
  now constructor.
Qed.

Lemma record_order_existing (s : State) (buyer book uuid : string) :
  order_pair_taken s buyer book = true ->
  record_order s buyer book uuid = s.
Proof.
  intros H. unfold record_order, insert_or_ignore_order. simpl.
  now rewrite H, orb_true_r.
Qed.

Lemma orders_of_ext (s s' : State) (buyer book : string) :
  orders s' = orders s -> orders_of s' buyer book = orders_of s buyer book.
Proof. unfold orders_of. now intros ->. Qed.

Lemma order_pairs_unique_ext (s s' : State) :
  orders s' = orders s -> order_pairs_unique s -> order_pairs_unique s'.
Proof.
  intros Heq H buyer book. unfold orders_of. rewrite Heq. apply H.
Qed.

Lemma orders_paid_ext (s s' : State) :
  orders s' = orders s -> orders_paid s -> orders_paid s'.
Proof. unfold orders_paid. now intros ->. Qed.

Lemma one_paid_row_owns (s : State) (buyer book : string) :
  orders_paid s ->
  length (orders_of s buyer book) = 1 ->
  ownsBook s buyer book = true.
Proof.
  intros Hpaid Hlen. apply ownsBook_spec.
  destruct (orders_of s buyer book) as [|o l] eqn:Ho; [discriminate|].
  assert (Hin : o ∈ orders_of s buyer book) by (rewrite Ho; left).
  apply orders_of_spec in Hin as (Hin & Hb & Hk).
  exists o. repeat split; auto.
  unfold orders_paid in Hpaid. rewrite Forall_forall in Hpaid.
  apply Hpaid. exact Hin.
Qed.

(** ** The purchase route *)

Section Purchase.

Variable PDFDocument_load : bytes -> option PDFDoc.
Variable PDFWriter_serialize : PDFDoc -> bytes.
Variable Helvetica_encodes : string -> bool.

Local Abbreviation stamp_page' := (stamp_page Helvetica_encodes).
Local Abbreviation PDFDocument_save' := (PDFDocument_save PDFWriter_serialize).
Local Abbreviation prepare_copy' :=
  (prepare_copy PDFDocument_load PDFWriter_serialize Helvetica_encodes).
Local Abbreviation buy' := (buy PDFDocument_load PDFWriter_serialize Helvetica_encodes).

Lemma stamp_page_ok (font : Font) (text : string) (p p' : PDFPage) :
  stamp_page' font text p = Ok p' ->
  Helvetica_encodes text = true /\ p' = stamped_page font text p.
Proof.
  unfold stamp_page, drawText, getSize. simpl.
  destruct (Helvetica_encodes text); [|discriminate].
  intros [= <-]. auto.
Qed.

Lemma stamp_pages_ok (font : Font) (text : string) (pages pages' : list PDFPage) :
  mapM (stamp_page' font text) pages = Ok pages' ->
  pages' = stamped_page font text <$> pages.
Proof.
  revert pages'. induction pages as [|p ps IH]; intros pages'; simpl.
  - now intros [= <-].
  - destruct (stamp_page' font text p) as [p'|] eqn:Hp; simpl; [|discriminate].
    destruct (mapM (stamp_page' font text) ps) as [ps'|]; simpl; [|discriminate].
    intros [= <-]. apply stamp_page_ok in Hp as [_ ->].
    now rewrite (IH ps' eq_refl).
Qed.

Lemma stamp_pages_encodable (font : Font) (text : string) (pages : list PDFPage) :
  Helvetica_encodes text = true ->
  mapM (stamp_page' font text) pages = Ok (stamped_page font text <$> pages).
Proof.
  intros Henc. induction pages as [|p ps IH]; simpl; [reflexivity|].
  rewrite IH. unfold stamp_page, drawText, getSize. simpl.
  now rewrite Henc.
Qed.

(** What a successful preparation has done. *)
Lemma prepare_copy_ok (s : State) (book : BookRow) (email uuid : string) (out : bytes) :
  prepare_copy' s book email uuid = Ok out ->
  exists src doc,
    uploads s !! book_pdf_path book = Some src /\
    PDFDocument_load src = Some doc /\
    out = PDFDocument_save'
            (mkDoc (stamped_page Helvetica (watermark_text email (book_title book) uuid)
                      <$> doc_pages doc)
                   (doc_fonts doc ++ [Helvetica])).
Proof.
  unfold prepare_copy, readFile.
  destruct (uploads s !! book_pdf_path book) as [src|]; simpl; [|discriminate].
  destruct (PDFDocument_load src) as [doc|] eqn:Hload; simpl; [|discriminate].
  unfold getPages. simpl.
  destruct (mapM _ (doc_pages doc)) as [pages|] eqn:Hpages; simpl; [|discriminate].
  intros [= <-]. apply stamp_pages_ok in Hpages as ->.
  exists src, doc. auto.
Qed.

(** When the source is on disk and parses, and the font encodes the text,
    the preparation succeeds. *)
Lemma prepare_copy_succeeds (s : State) (book : BookRow) (email uuid : string)
    (src : bytes) (doc : PDFDoc) :
  uploads s !! book_pdf_path book = Some src ->
  PDFDocument_load src = Some doc ->
  Helvetica_encodes (watermark_text email (book_title book) uuid) = true ->
  prepare_copy' s book email uuid
  = Ok (PDFDocument_save'
          (mkDoc (stamped_page Helvetica (watermark_text email (book_title book) uuid)
                    <$> doc_pages doc)
                 (doc_fonts doc ++ [Helvetica]))).
Proof.
  intros Hsrc Hload Henc. unfold prepare_copy, readFile.
  rewrite Hsrc. simpl. rewrite Hload. simpl. unfold getPages. simpl.
  now rewrite (stamp_pages_encodable _ _ _ Henc).
Qed.

Lemma prepare_copy_uploads (s s' : State) (book : BookRow) (email uuid : string) :
  uploads s' = uploads s ->
  prepare_copy' s' book email uuid = prepare_copy' s book email uuid.
Proof. intros H. unfold prepare_copy. now rewrite H. Qed.

(** The purchase of an existing book, step by step. *)
Lemma buy_existing (s : State) (user : SessionUser) (id uuid : string)
    (w : WriteOutcome) (book : BookRow) :
  select_book s id = Some book ->
  buy' s (Some user) id uuid w =
  let s1 := record_order s (su_id user) (book_id book) uuid in
  match prepare_copy' s book (su_email user) uuid with
  | Err _ => (s1, Status 500 "Failed to prepare purchase")
  | Ok stamped =>
      match writeFile (purchases s) (artifact_name (su_id user) (book_id book)) stamped w with
      | (dir, Ok _) => (set_purchases s1 dir, Redirect "/library")
      | (dir, Err _) => (set_purchases s1 dir, Status 500 "Failed to prepare purchase")
      end
  end.
Proof.
  intros Hbook. unfold buy. rewrite Hbook.
  fold (record_order s (su_id user) (book_id book) uuid).
  destruct (record_order_frame s (su_id user) (book_id book) uuid)
    as (_ & _ & Hup & Hpur).
  rewrite (prepare_copy_uploads _ _ _ _ _ Hup), Hpur. reflexivity.
Qed.

Lemma buy_frame (s : State) (sess : option SessionUser) (id uuid : string)
    (w : WriteOutcome) :
  users (buy' s sess id uuid w).1 = users s /\
  books (buy' s sess id uuid w).1 = books s /\
  uploads (buy' s sess id uuid w).1 = uploads s.
Proof.
  destruct sess as [user|]; [|auto].
  destruct (select_book s id) as [book|] eqn:Hbook.
  - rewrite (buy_existing _ _ _ _ _ _ Hbook). cbv zeta.
    destruct (record_order_frame s (su_id user) (book_id book) uuid) as (Hu & Hb & Hup & _).
    destruct (prepare_copy' s book (su_email user) uuid); [destruct w|]; auto.
  - unfold buy. rewrite Hbook. auto.
Qed.

Lemma buy_existing_orders (s : State) (user : SessionUser) (id uuid : string)
    (w : WriteOutcome) (book : BookRow) :
  select_book s id = Some book ->
  orders (buy' s (Some user) id uuid w).1
  = orders (record_order s (su_id user) id uuid).
Proof.
  intros Hbook. destruct (select_book_some _ _ _ Hbook) as (_ & Hid & _).
  rewrite (buy_existing _ _ _ _ _ _ Hbook), Hid. cbv zeta.
  destruct (prepare_copy' s book (su_email user) uuid); [destruct w|]; reflexivity.
Qed.

Lemma buy_orders (s : State) (sess : option SessionUser) (id uuid : string)
    (w : WriteOutcome) :
  orders (buy' s sess id uuid w).1 = orders s \/
  exists buyer book, orders (buy' s sess id uuid w).1
                     = orders (record_order s buyer book uuid).
Proof.
  destruct sess as [user|]; [|now left].
  destruct (select_book s id) as [book|] eqn:Hbook.
  - right. exists (su_id user), id. now apply buy_existing_orders with book.
  - left. unfold buy. now rewrite Hbook.
Qed.

(** Every purchase keeps the two constraints of the table. *)
Lemma buy_pairs_unique (s : State) (sess : option SessionUser) (id uuid : string)
    (w : WriteOutcome) :
  order_pairs_unique s -> order_pairs_unique (buy' s sess id uuid w).1.
Proof.
  intros Hu.
  destruct (buy_orders s sess id uuid w) as [H | (buyer & book & H)];
    (eapply order_pairs_unique_ext; [exact H|]); [exact Hu|].
  now apply record_order_pairs_unique.
Qed.

Lemma buy_paid (s : State) (sess : option SessionUser) (id uuid : string)
    (w : WriteOutcome) :
  orders_paid s -> orders_paid (buy' s sess id uuid w).1.
Proof.
  intros Hp.
  destruct (buy_orders s sess id uuid w) as [H | (buyer & book & H)];
    (eapply orders_paid_ext; [exact H|]); [exact Hp|].
  now apply record_order_paid.
Qed.

(** The row of the pair after a purchase of an existing book. *)
Lemma buy_one_row (s : State) (user : SessionUser) (id uuid : string)
    (w : WriteOutcome) (book : BookRow) :
  order_pairs_unique s ->
  select_book s id = Some book ->
  user_id_taken s (su_id user) = true ->
  order_id_taken s uuid = false \/ order_pair_taken s (su_id user) id = true ->
  length (orders_of (buy' s (Some user) id uuid w).1 (su_id user) id) = 1.
Proof.
  intros Huniq Hbook Hreg Hfresh.
  destruct (select_book_some _ _ _ Hbook) as (_ & _ & Htaken).
  rewrite (orders_of_ext _ _ _ _ (buy_existing_orders _ _ _ _ w _ Hbook)).
  now apply record_order_one_row.
Qed.

(** The answer of a purchase of an existing book, and the file it leaves
    when it answers with the redirect. *)
Lemma buy_outcome (s : State) (user : SessionUser) (id uuid : string)
    (w : WriteOutcome) (book : BookRow) :
  select_book s id = Some book ->
  match prepare_copy' s book (su_email user) uuid, w with
  | Ok copy, Completes =>
      (buy' s (Some user) id uuid w).2 = Redirect "/library" /\
      purchases (buy' s (Some user) id uuid w).1 !! artifact_name (su_id user) id
      = Some copy
  | _, _ => (buy' s (Some user) id uuid w).2 = Status 500 "Failed to prepare purchase"
  end.
Proof.
  intros Hbook. destruct (select_book_some _ _ _ Hbook) as (_ & Hid & _).
  rewrite (buy_existing _ _ _ _ _ _ Hbook), Hid. cbv zeta.
  destruct (prepare_copy' s book (su_email user) uuid) as [copy|e]; [|reflexivity].
  destruct w; cbn [writeFile fst snd]; auto.
  split; [reflexivity | apply lookup_insert_eq].
Qed.

(** C2. Two purchases in a row by a registered buyer of an existing book,
    the first with an identifier that is not yet a key of the table.  The
    orders table holds exactly one row for the pair after the first call and
    after the second.  Each call, the repeat included, goes on to prepare the
    copy: when the copy is prepared and the write completes, the call
    answers with the redirect to the library and the file of the pair is the
    copy of that call; otherwise it answers with the 500. *)
Theorem purchase_twice_one_order (s : State) (user : SessionUser)
    (id uuid1 uuid2 : string) (w1 w2 : WriteOutcome) (book : BookRow) :
  order_pairs_unique s ->
  select_book s id = Some book ->
  user_id_taken s (su_id user) = true ->
  order_id_taken s uuid1 = false ->
  let first := buy' s (Some user) id uuid1 w1 in
  let second := buy' first.1 (Some user) id uuid2 w2 in
  length (orders_of first.1 (su_id user) id) = 1 /\
  length (orders_of second.1 (su_id user) id) = 1 /\
  match prepare_copy' s book (su_email user) uuid1, w1 with
  | Ok copy, Completes =>
      first.2 = Redirect "/library" /\
      purchases first.1 !! artifact_name (su_id user) id = Some copy
  | _, _ => first.2 = Status 500 "Failed to prepare purchase"
  end /\
  match prepare_copy' s book (su_email user) uuid2, w2 with
  | Ok copy, Completes =>
      second.2 = Redirect "/library" /\
      purchases second.1 !! artifact_name (su_id user) id = Some copy
  | _, _ => second.2 = Status 500 "Failed to prepare purchase"
  end.
Proof.
  intros Huniq Hbook Hreg Hfresh first second.
  destruct (buy_frame s (Some user) id uuid1 w1) as (Hu & Hb & Hup).
  fold first in Hu, Hb, Hup.
  assert (Hone : length (orders_of first.1 (su_id user) id) = 1)
    by (apply buy_one_row with book; auto).
  assert (Hbook1 : select_book first.1 id = Some book)
    by (unfold select_book; now rewrite Hb).
  split; [exact Hone|]. split; [|split].
  - apply buy_one_row with book.
    + now apply buy_pairs_unique.
    + exact Hbook1.
    + unfold user_id_taken. now rewrite Hu.
    + right. destruct (order_pair_taken first.1 (su_id user) id) eqn:Hp; [reflexivity|].
      apply order_pair_taken_spec in Hp. rewrite Hp in Hone. discriminate.
  - apply (buy_outcome s user id uuid1 w1 book Hbook).
  - rewrite <- (prepare_copy_uploads _ _ _ _ _ Hup).
    apply (buy_outcome first.1 user id uuid2 w2 book Hbook1).
Qed.

(** C6. A purchase by a registered buyer, with an identifier that is not
    yet a key of the table.  When the book does not exist the answer is the
    404 and the state is untouched, so no order row is created.  When it
    exists, the buyer owns it afterwards through exactly one PAID row
    whatever happens to the copy; the answer is the redirect only when the
    copy was prepared and written in full, and it is the 500 "Failed to
    prepare purchase" in every other case. *)
Theorem buy_failure_contract (s : State) (user : SessionUser) (id uuid : string)
    (w : WriteOutcome) :
  orders_paid s ->
  order_pairs_unique s ->
  user_id_taken s (su_id user) = true ->
  order_id_taken s uuid = false ->
  match select_book s id with
  | None => buy' s (Some user) id uuid w = (s, Status 404 "Not found")
  | Some book =>
      let result := buy' s (Some user) id uuid w in
      ownsBook result.1 (su_id user) id = true /\
      length (orders_of result.1 (su_id user) id) = 1 /\
      match prepare_copy' s book (su_email user) uuid, w with
      | Ok copy, Completes =>
          result.2 = Redirect "/library" /\
          purchases result.1 !! artifact_name (su_id user) id = Some copy
      | _, _ => result.2 = Status 500 "Failed to prepare purchase"
      end
  end.
Proof.
  intros Hpaid Huniq Hreg Hfresh.
  destruct (select_book s id) as [book|] eqn:Hbook.
  - intros result.
    assert (Hone : length (orders_of result.1 (su_id user) id) = 1)
      by (apply buy_one_row with book; auto).
    split; [|split].
    + apply one_paid_row_owns; [|exact Hone].
      now apply buy_paid.
    + exact Hone.
    + apply (buy_outcome s user id uuid w book Hbook).
  - unfold buy. now rewrite Hbook.
Qed.

(** C3, as the code has it.  What a purchase does to the purchases
    directory: nothing when the book is missing or the copy cannot be
    prepared, nothing when the write fails before the file is opened; a
    completed write puts the whole copy under the name of the pair; a write
    that fails once the file is open leaves the bytes written so far under
    that same name, in place of what was there.  No other name changes. *)
Theorem buy_artifact_write (s : State) (user : SessionUser) (id uuid : string)
    (w : WriteOutcome) :
  let result := buy' s (Some user) id uuid w in
  match select_book s id with
  | None => purchases result.1 = purchases s
  | Some book =>
      match prepare_copy' s book (su_email user) uuid, w with
      | Err _, _ => purchases result.1 = purchases s
      | Ok copy, Completes =>
          purchases result.1 = <[artifact_name (su_id user) id := copy]> (purchases s)
      | Ok copy, FailsBeforeOpen => purchases result.1 = purchases s
      | Ok copy, FailsAfter n =>
          purchases result.1
          = <[artifact_name (su_id user) id := take n copy]> (purchases s)
      end
  end.
Proof.
  cbv zeta. destruct (select_book s id) as [book|] eqn:Hbook.
  - destruct (select_book_some _ _ _ Hbook) as (_ & Hid & _).
    rewrite (buy_existing _ _ _ _ _ _ Hbook), Hid. cbv zeta.
    destruct (prepare_copy' s book (su_email user) uuid) as [copy|e].
    + destruct w; reflexivity.
    + cbn [fst]. apply record_order_frame.
  - unfold buy. now rewrite Hbook.
Qed.

(** C7, as the code has it.  The document read back from a prepared copy,
    by a reader that finds in a file the pages the writer was given.  When
    the source has pages, the copy has them in the same number and order,
    and each page has its size, the content streams it had, now between a
    [q] and a [Q] stream, and the watermark text drawn after them, whatever
    the size of the page.  When the source has no page, the copy has one:
    the blank page that [save] adds, on which nothing is drawn. *)
Theorem prepared_copy_keeps_pages (s : State) (book : BookRow) (email uuid : string)
    (out : bytes) :
  (forall d, doc_pages <$> PDFDocument_load (PDFWriter_serialize d) = Some (doc_pages d)) ->
  prepare_copy' s book email uuid = Ok out ->
  exists src doc doc',
    uploads s !! book_pdf_path book = Some src /\
    PDFDocument_load src = Some doc /\
    PDFDocument_load out = Some doc' /\
    match doc_pages doc with
    | [] => doc_pages doc' = [default_page] /\ page_contents default_page = None
    | _ :: _ =>
        length (doc_pages doc') = length (doc_pages doc) /\
        forall (i : nat) (p : PDFPage), doc_pages doc !! i = Some p ->
          exists p', doc_pages doc' !! i = Some p' /\
            getSize p' = getSize p /\
            page_contents p'
            = Some (wrapContentStreams (page_contents p)
                    ++ [DrawnText (watermark_text email (book_title book) uuid)
                          (watermark_options Helvetica)])%list
    end.
Proof.
  intros Hrt H. apply prepare_copy_ok in H as (src & doc & Hsrc & Hload & ->).
  unfold PDFDocument_save. cbn [doc_pages doc_fonts].
  match goal with
  | |- context [PDFWriter_serialize ?d] => specialize (Hrt d); set (saved := d) in *
  end.
  destruct (PDFDocument_load (PDFWriter_serialize saved)) as [doc'|] eqn:Hout;
    [|discriminate].
  injection Hrt as Hpages. subst saved. cbn [doc_pages] in Hpages.
  exists src, doc, doc'. do 3 (split; [first [assumption | reflexivity]|]).
  rewrite Hpages. destruct (doc_pages doc) as [|p0 ps] eqn:Hsrcpages; [now split|].
  rewrite fmap_cons. cbv beta iota. split.
  - cbn [length]. now rewrite length_fmap.
  - set (stamp := stamped_page Helvetica (watermark_text email (book_title book) uuid)).
    intros [|i] p Hp.
    + injection Hp as <-. exists (stamp p0). split; [reflexivity|]. split; reflexivity.
    + change (ps !! i = Some p) in Hp.
      exists (stamp p). split; [|split; reflexivity].
      change ((stamp <$> ps) !! i = Some (stamp p)).
      now rewrite list_lookup_fmap, Hp.
Qed.

Lemma append_inj (a x y : string) : a +:+ x = a +:+ y -> x = y.
Proof. induction a as [|c a IH]; simpl; [auto|]. intros [= H]. auto. Qed.

Lemma watermark_text_inj (email title x y : string) :
  watermark_text email title x = watermark_text email title y -> x = y.
Proof. unfold watermark_text. intros H. now do 5 apply append_inj in H. Qed.

(** C10. A purchase repeated by a buyer who already has an order row for
    the book, with an identifier that is not yet a key of the table: the
    insert is ignored and the table is unchanged, the copy written for the
    pair is stamped on every page with the text that carries the new
    identifier, and no stored row, the buyer's own included, has that
    identifier or would give that text. *)
Theorem repeat_purchase_watermark_id (s : State) (user : SessionUser)
    (id uuid : string) (book : BookRow) (o : OrderRow) (copy : bytes) :
  select_book s id = Some book ->
  o ∈ orders s -> order_buyer_id o = su_id user -> order_book_id o = id ->
  order_id_taken s uuid = false ->
  prepare_copy' s book (su_email user) uuid = Ok copy ->
  let result := buy' s (Some user) id uuid Completes in
  let text := watermark_text (su_email user) (book_title book) in
  orders result.1 = orders s /\
  purchases result.1 !! artifact_name (su_id user) id = Some copy /\
  (exists src doc,
      uploads s !! book_pdf_path book = Some src /\
      PDFDocument_load src = Some doc /\
      copy = PDFDocument_save'
               (mkDoc (stamped_page Helvetica (text uuid) <$> doc_pages doc)
                      (doc_fonts doc ++ [Helvetica]))) /\
  (forall o', o' ∈ orders result.1 ->
      order_id o' <> uuid /\ text (order_id o') <> text uuid).
Proof.
  intros Hbook Hin Hbuyer Hbk Hfresh Hcopy.
  destruct (select_book_some _ _ _ Hbook) as (_ & Hid & _).
  assert (Hpair : order_pair_taken s (su_id user) id = true).
  { destruct (order_pair_taken s (su_id user) id) eqn:Hp; [reflexivity|].
    apply order_pair_taken_spec in Hp.
    assert (Ho : o ∈ orders_of s (su_id user) id) by (apply orders_of_spec; auto).
    rewrite Hp in Ho. inversion Ho. }
  cbv zeta. rewrite (buy_existing _ _ _ _ _ _ Hbook), Hid. cbv zeta.
  rewrite Hcopy, (record_order_existing _ _ _ _ Hpair). cbn [writeFile fst snd].
  split; [reflexivity|]. split; [apply lookup_insert_eq|].
  split; [now apply prepare_copy_ok|].
  intros o' Ho'. cbn [orders set_purchases] in Ho'.
  assert (Hne : order_id o' <> uuid).
  { intros Heq. apply existsb_field_false in Hfresh. apply Hfresh.
    apply list_elem_of_fmap. now exists o'. }
  split; [exact Hne|]. intros Heq. now apply watermark_text_inj in Heq.
Qed.


End Purchase.

(** ** Accounts *)

Ltac split_matches :=
  repeat match goal with
         | |- context [match ?x with _ => _ end] => destruct x eqn:?; simpl
         end.

Lemma insert_book_users (s s' : State) (r : BookRow) :
  insert_book s r = Ok s' -> users s' = users s.
Proof.
  unfold insert_book. split_matches; intros [= <-]; reflexivity.
Qed.

Lemma insert_user_users (s s' : State) (r : UserRow) :
  insert_user s r = Ok s' -> users s' = (users s ++ [r])%list.
Proof.
  unfold insert_user. split_matches; intros [= <-]; reflexivity.
Qed.

Section Accounts.

Variable toLowerCase : string -> string.
Variable bcrypt_hash : string -> string -> string.
Variable bcrypt_compare : string -> string -> bool.
Variable PDFDocument_load : bytes -> option PDFDoc.
Variable PDFWriter_serialize : PDFDoc -> bytes.
Variable Helvetica_encodes : string -> bool.

Local Abbreviation register' := (register toLowerCase bcrypt_hash).
Local Abbreviation login' := (login toLowerCase bcrypt_compare).
Local Abbreviation buy' := (buy PDFDocument_load PDFWriter_serialize Helvetica_encodes).
Local Abbreviation new_book' := (new_book toLowerCase).
Local Abbreviation handle' :=
  (handle toLowerCase bcrypt_hash bcrypt_compare PDFDocument_load PDFWriter_serialize
     Helvetica_encodes).
Local Abbreviation run' :=
  (run toLowerCase bcrypt_hash bcrypt_compare PDFDocument_load PDFWriter_serialize
     Helvetica_encodes).

Lemma register_success (s s1 : State) (sess sess1 : option SessionUser)
    (uuid salt : string) (name email password role : option string) :
  register' s sess uuid salt name email password role = (s1, sess1, Redirect "/") ->
  exists e pw,
    email = Some e /\ password = Some pw /\
    email_taken s (toLowerCase e) = false /\
    s1 = set_users s
           (users s ++ [registered_row uuid (bcrypt_hash salt pw) name (toLowerCase e) role]).
Proof.
  unfold register.
  destruct email as [e|]; [|discriminate].
  destruct password as [pw|]; [|discriminate].
  destruct (falsy (Some e) || falsy (Some pw)); [discriminate|].
  unfold insert_user. cbn [user_id user_email].
  destruct (user_id_taken s uuid); [discriminate|].
  destruct (email_taken s (toLowerCase e)) eqn:Hfree; [discriminate|].
  intros [= <- _]. exists e, pw. auto.
Qed.


Lemma buy_users (s : State) (sess : option SessionUser) (id uuid : string)
    (w : WriteOutcome) :
  users (buy' s sess id uuid w).1 = users s.
Proof. apply buy_frame. Qed.

Lemma new_book_users (s : State) (sess : option SessionUser) (uuid : string)
    (title description price_ngn : option string) (parts : list FilePart) :
  users (new_book' s sess uuid title description price_ngn parts).1 = users s.
Proof.
  unfold new_book. split_matches; try reflexivity;
    match goal with
    | H : insert_book _ _ = Ok _ |- _ => now rewrite (insert_book_users _ _ _ H)
    end.
Qed.

(** No request removes or changes a row of [users]: the table only grows
    at its end. *)
Lemma handle_users (s : State) (sess : option SessionUser) (r : Request) :
  exists more, users (handle' s sess r).1.1 = (users s ++ more)%list.
Proof.
  destruct r; simpl.
  - unfold register. split_matches;
      try (exists []; now rewrite app_nil_r).
    match goal with
    | H : insert_user _ _ = Ok _ |- _ => apply insert_user_users in H; eauto
    end.
  - unfold login. split_matches; exists []; now rewrite app_nil_r.
  - exists []; now rewrite app_nil_r.
  - pose proof (new_book_users s sess uuid title description price_ngn parts) as H.
    destruct (new_book _ _ _ _ _ _ _ _). simpl in *. exists []. now rewrite app_nil_r.
  - exists []; now rewrite app_nil_r.
  - pose proof (buy_users s sess id uuid w) as H.
    destruct (buy _ _ _ _ _ _ _ _). simpl in *. exists []. now rewrite app_nil_r.
  - exists []; now rewrite app_nil_r.
  - exists []; now rewrite app_nil_r.
  - exists []; now rewrite app_nil_r.
Qed.


Lemma handle_keeps_registered (s : State) (sess : option SessionUser) (r : Request)
    (id : string) :
  user_id_taken s id = true -> user_id_taken (handle' s sess r).1.1 id = true.
Proof.
  intros H. destruct (handle_users s sess r) as [more Hmore].
  unfold user_id_taken in *. rewrite Hmore, existsb_app, H. reflexivity.
Qed.

(** Sessions are made by the register and login routes only, and these store
    the identifier of a row of [users]: a session user is registered, and
    stays so. *)
Lemma handle_session_registered (s : State) (sess : option SessionUser) (r : Request) :
  session_registered s sess ->
  session_registered (handle' s sess r).1.1 (handle' s sess r).1.2.
Proof.
  intros Hsess.
  assert (Hkeep : session_registered (handle' s sess r).1.1 sess).
  { destruct sess as [user|]; [|exact I]. now apply handle_keeps_registered. }
  destruct r as [uuid salt name email password role | email password next |
                 | uuid title description price_ngn parts | id | id uuid w
                 | bookId | name | name];
    simpl in *; try exact Hkeep; try exact I.
  - revert Hkeep. unfold register.
    destruct email as [e|]; [|auto]. destruct password as [pw|]; [|auto].
    destruct (falsy (Some e) || falsy (Some pw)); [auto|].
    destruct (insert_user s _) as [s'|err] eqn:Hins; [|auto].
    intros _. simpl. apply insert_user_users in Hins.
    unfold user_id_taken. rewrite Hins, existsb_app. simpl.
    rewrite bool_decide_eq_true_2 by reflexivity. now rewrite orb_true_r.
  - revert Hkeep. unfold login.
    destruct email as [e|]; [|auto].
    destruct (select_user_by_email s (toLowerCase e)) as [row|] eqn:Hsel; [|auto].
    destruct password as [pw|]; [|auto].
    destruct (bcrypt_compare pw (user_password_hash row)); [|auto].
    intros _. simpl. apply find_some in Hsel as [Hin _].
    apply existsb_field, list_elem_of_fmap. exists row.
    split; [reflexivity | now apply list_elem_of_In].
  - destruct (new_book' s sess uuid title description price_ngn parts). exact Hkeep.
  - destruct (buy _ _ _ s sess id uuid w). exact Hkeep.
Qed.

Lemma handle_users_cases (s : State) (sess : option SessionUser) (r : Request) :
  users (handle' s sess r).1.1 = users s \/
  exists row,
    email_taken s (user_email row) = false /\
    (exists e, user_email row = toLowerCase e) /\
    users (handle' s sess r).1.1 = (users s ++ [row])%list.
Proof.
  destruct r as [uuid salt name email password role | email password next |
                 | uuid title description price_ngn parts | id | id uuid w
                 | bookId | name | name];
    simpl; try now left.
  - destruct (register' s sess uuid salt name email password role)
      as [[s1 sess1] resp] eqn:Hreg.
    assert (Hcases : resp = Redirect "/" \/ s1 = s).
    { revert Hreg. unfold register. split_matches; intros [= <- _ <-]; auto. }
    destruct Hcases as [-> | ->]; [|now left].
    apply register_success in Hreg as (e & pw & _ & _ & Hfree & ->).
    right. exists (registered_row uuid (bcrypt_hash salt pw) name (toLowerCase e) role).
    split; [exact Hfree|]. split; [now exists e | reflexivity].
  - left. unfold login. split_matches; reflexivity.
  - left. pose proof (new_book_users s sess uuid title description price_ngn parts) as H.
    now destruct (new_book _ _ _ _ _ _ _ _).
  - left. pose proof (buy_users s sess id uuid w) as H.
    now destruct (buy _ _ _ _ _ _ _ _).
Qed.

(** Stored emails are lower-case forms and pairwise distinct: this holds of
    the empty database and every request keeps it. *)
Lemma handle_emails_invariant (s : State) (sess : option SessionUser) (r : Request) :
  emails_lowercase toLowerCase s /\ emails_unique s ->
  emails_lowercase toLowerCase (handle' s sess r).1.1 /\
  emails_unique (handle' s sess r).1.1.
Proof.
  intros [Hlow Huniq]. unfold emails_lowercase, emails_unique in *.
  destruct (handle_users_cases s sess r) as [-> | (row & Hfree & Hrow & ->)]; [auto|].
  split.
  - apply Forall_app. split; [exact Hlow | now constructor].
  - rewrite fmap_app. apply NoDup_app. split; [exact Huniq|]. split.
    + intros e He Hin. apply list_elem_of_singleton in Hin. subst e.
      apply existsb_field_false in Hfree. contradiction.
    + apply NoDup_singleton.
Qed.

Lemma run_emails_invariant (rs : list (option SessionUser * Request)) (s : State) :
  emails_lowercase toLowerCase s /\ emails_unique s ->
  emails_lowercase toLowerCase (run' s rs) /\ emails_unique (run' s rs).
Proof.
  revert s. induction rs as [|[sess r] rs IH]; intros s H; simpl; [exact H|].
  apply IH. now apply handle_emails_invariant.
Qed.

Lemma init_emails_invariant : emails_lowercase toLowerCase init /\ emails_unique init.
Proof. split; constructor. Qed.



End Accounts.

(** ** The constraints of [orders] along a run *)

Lemma insert_book_orders (s s' : State) (r : BookRow) :
  insert_book s r = Ok s' -> orders s' = orders s.
Proof.
  unfold insert_book. split_matches; intros [= <-]; reflexivity.
Qed.

Lemma insert_user_orders (s s' : State) (r : UserRow) :
  insert_user s r = Ok s' -> orders s' = orders s.
Proof.
  unfold insert_user. split_matches; intros [= <-]; reflexivity.
Qed.

Section Runs.

Variable toLowerCase : string -> string.
Variable bcrypt_hash : string -> string -> string.
Variable bcrypt_compare : string -> string -> bool.
Variable PDFDocument_load : bytes -> option PDFDoc.
Variable PDFWriter_serialize : PDFDoc -> bytes.
Variable Helvetica_encodes : string -> bool.

Local Abbreviation buy' := (buy PDFDocument_load PDFWriter_serialize Helvetica_encodes).
Local Abbreviation new_book' := (new_book toLowerCase).
Local Abbreviation handle' :=
  (handle toLowerCase bcrypt_hash bcrypt_compare PDFDocument_load PDFWriter_serialize
     Helvetica_encodes).
Local Abbreviation run' :=
  (run toLowerCase bcrypt_hash bcrypt_compare PDFDocument_load PDFWriter_serialize
     Helvetica_encodes).

Lemma new_book_orders (s : State) (sess : option SessionUser) (uuid : string)
    (title description price_ngn : option string) (parts : list FilePart) :
  orders (new_book' s sess uuid title description price_ngn parts).1 = orders s.
Proof.
  unfold new_book. split_matches; try reflexivity;
    match goal with
    | H : insert_book _ _ = Ok _ |- _ => now rewrite (insert_book_orders _ _ _ H)
    end.
Qed.

Lemma handle_orders (s : State) (sess : option SessionUser) (r : Request) :
  orders (handle' s sess r).1.1 = orders s \/
  exists buyer book uuid, orders (handle' s sess r).1.1
                          = orders (record_order s buyer book uuid).
Proof.
  destruct r; simpl; try now left.
  - left. unfold register. split_matches; try reflexivity.
    match goal with
    | H : insert_user _ _ = Ok _ |- _ => now apply insert_user_orders in H
    end.
  - left. unfold login. split_matches; reflexivity.
  - left. pose proof (new_book_orders s sess uuid title description price_ngn parts) as H.
    now destruct (new_book _ _ _ _ _ _ _ _).
  - pose proof (buy_orders PDFDocument_load PDFWriter_serialize Helvetica_encodes
                  s sess id uuid w) as H.
    destruct (buy _ _ _ _ _ _ _ _). simpl in *.
    destruct H as [H | (buyer & book & H)]; [now left | right; eauto].
Qed.

(** The two constraints hold of the empty database and every request keeps
    them: at most one row per (buyer, book) pair, and every row PAID. *)
Lemma handle_orders_invariant (s : State) (sess : option SessionUser) (r : Request) :
  order_pairs_unique s /\ orders_paid s ->
  order_pairs_unique (handle' s sess r).1.1 /\ orders_paid (handle' s sess r).1.1.
Proof.
  intros [Hu Hp].
  destruct (handle_orders s sess r) as [H | (buyer & book & uuid & H)].
  - split; [eapply order_pairs_unique_ext | eapply orders_paid_ext]; eauto.
  - split.
    + eapply order_pairs_unique_ext; [exact H|]. now apply record_order_pairs_unique.
    + eapply orders_paid_ext; [exact H|]. now apply record_order_paid.
Qed.

Lemma run_orders_invariant (rs : list (option SessionUser * Request)) (s : State) :
  order_pairs_unique s /\ orders_paid s ->
  order_pairs_unique (run' s rs) /\ orders_paid (run' s rs).
Proof.
  revert s. induction rs as [|[sess r] rs IH]; intros s H; simpl; [exact H|].
  apply IH. now apply handle_orders_invariant.
Qed.

Lemma init_orders_invariant : order_pairs_unique init /\ orders_paid init.
Proof.
  split; [intros buyer book; simpl; lia | constructor].
Qed.

End Runs.

(** * Further properties of the routes *)

(** ** What an insert does *)

Lemma insert_user_ok (s s' : State) (r : UserRow) :
  insert_user s r = Ok s' ->
  user_id_taken s (user_id r) = false /\
  email_taken s (user_email r) = false /\
  s' = set_users s (users s ++ [r]).
Proof.
  unfold insert_user.
  destruct (user_id_taken s (user_id r)); [discriminate|].
  destruct (email_taken s (user_email r)); [discriminate|].
  intros [= <-]. auto.
Qed.

Lemma insert_book_ok (s s' : State) (r : BookRow) :
  insert_book s r = Ok s' ->
  book_id_taken s (book_id r) = false /\
  user_id_taken s (book_author_id r) = true /\
  s' = set_books s (books s ++ [r]).
Proof.
  unfold insert_book.
  destruct (book_id_taken s (book_id r)); [discriminate|].
  destruct (user_id_taken s (book_author_id r)); [|discriminate].
  intros [= <-]. auto.
Qed.

Lemma taken_snoc {A} (f : A -> string) (l : list A) (x : A) (k : string) :
  existsb (fun y => bool_decide (f y = k)) l = true ->
  existsb (fun y => bool_decide (f y = k)) (l ++ [x])%list = true.
Proof. intros H. now rewrite existsb_app, H. Qed.

Lemma NoDup_snoc_field {A} (f : A -> string) (l : list A) (x : A) :
  NoDup (f <$> l) ->
  existsb (fun y => bool_decide (f y = f x)) l = false ->
  NoDup (f <$> (l ++ [x])%list).
Proof.
  intros Hnd Hfree. rewrite fmap_app. apply NoDup_app.
  split; [exact Hnd|]. split; [|apply NoDup_singleton].
  intros k Hk Hin. apply list_elem_of_singleton in Hin. subst k.
  apply existsb_field_false in Hfree. contradiction.
Qed.

Section Publication.

Variable toLowerCase : string -> string.

Local Abbreviation fileFilter' := (fileFilter toLowerCase).
Local Abbreviation bookUpload' := (bookUpload toLowerCase).
Local Abbreviation new_book' := (new_book toLowerCase).

Lemma register_cases (bcrypt_hash : string -> string -> string) (s : State)
    (sess : option SessionUser) (uuid salt : string)
    (name email password role : option string) :
  (register toLowerCase bcrypt_hash s sess uuid salt name email password role).1.1 = s \/
  exists row,
    insert_user s row
    = Ok (register toLowerCase bcrypt_hash s sess uuid salt name email password role).1.1 /\
    (user_role row = "WRITER" \/ user_role row = "READER").
Proof.
  unfold register.
  destruct email as [e|]; [|now left]. destruct password as [pw|]; [|now left].
  destruct (falsy (Some e) || falsy (Some pw)); [now left|].
  destruct (insert_user s _) as [s'|err] eqn:Hins; [|now left].
  right. eexists. split; [exact Hins|]. simpl.
  destruct (bool_decide (role = Some "WRITER")); auto.
Qed.

Lemma login_state (bcrypt_compare : string -> string -> bool) (s : State)
    (sess : option SessionUser) (email password next : option string) :
  (login toLowerCase bcrypt_compare s sess email password next).1.1 = s.
Proof. unfold login. split_matches; reflexivity. Qed.

(** The publication route, when it answers with the redirect to the book. *)
Lemma new_book_redirect (s s' : State) (user : SessionUser) (uuid loc : string)
    (title description price_ngn : option string) (parts : list FilePart) :
  new_book' s (Some user) uuid title description price_ngn parts = (s', Redirect loc) ->
  su_role user = "WRITER" /\ loc = "/books/" +:+ uuid /\
  exists dir stored pdf t price,
    bookUpload' (uploads s) [] parts = (dir, Ok stored) /\
    file_of_field "pdf" stored = Some pdf /\
    title = Some t /\
    parseInt (if falsy price_ngn then "0" else default "0" price_ngn) = Some price /\
    (forall c, file_of_field "cover" stored = Some c ->
               (MAX_COVER_SIZE <? sf_size c)%Z = false) /\
    insert_book (set_uploads s dir)
      (mkBook uuid (su_id user) t description price (sf_filename pdf)
         (match file_of_field "cover" stored with
          | Some c => if falsy (Some (sf_filename c)) then None else Some (sf_filename c)
          | None => None
          end)) = Ok s'.
Proof.
  unfold new_book.
  destruct (bool_decide (su_role user = "WRITER")) eqn:Hrole; simpl; [|discriminate].
  apply bool_decide_eq_true in Hrole.
  destruct (bookUpload' (uploads s) [] parts) as [dir [stored|m]] eqn:Hup; [|discriminate].
  destruct (file_of_field "pdf" stored) as [pdf|] eqn:Hpdf; [|discriminate].
  assert (Hinsert :
    match title,
          parseInt (if falsy price_ngn then "0" else default "0" price_ngn) with
    | Some t, Some price =>
        match insert_book (set_uploads s dir)
                (mkBook uuid (su_id user) t description price (sf_filename pdf)
                   (match file_of_field "cover" stored with
                    | Some c =>
                        if falsy (Some (sf_filename c)) then None
                        else Some (sf_filename c)
                    | None => None
                    end)) with
        | Ok s2 => (s2, Redirect ("/books/" +:+ uuid))
        | Err _ => (set_uploads s dir, Unhandled)
        end
    | _, _ => (set_uploads s dir, Unhandled)
    end = (s', Redirect loc) ->
    loc = "/books/" +:+ uuid /\
    exists t price, title = Some t /\
      parseInt (if falsy price_ngn then "0" else default "0" price_ngn) = Some price /\
      insert_book (set_uploads s dir)
        (mkBook uuid (su_id user) t description price (sf_filename pdf)
           (match file_of_field "cover" stored with
            | Some c => if falsy (Some (sf_filename c)) then None else Some (sf_filename c)
            | None => None
            end)) = Ok s').
  { destruct title as [t|]; [|discriminate].
    destruct (parseInt _) as [price|] eqn:Hprice; [|discriminate].
    destruct (insert_book _ _) as [s2|err] eqn:Hins; [|discriminate].
    intros [= <- <-]. split; [reflexivity|]. exists t, price. auto. }
  destruct (file_of_field "cover" stored) as [c|] eqn:Hcover.
  - destruct (MAX_COVER_SIZE <? sf_size c)%Z eqn:Hsize; [discriminate|].
    intros H. apply Hinsert in H as (-> & t & price & -> & Hprice & Hins).
    split; [exact Hrole|]. split; [reflexivity|].
    exists dir, stored, pdf, t, price.
    do 4 (split; [first [reflexivity | assumption]|]). split; [|rewrite Hcover; exact Hins].
    intros c' Hc. assert (c' = c) as -> by congruence. exact Hsize.
  - intros H. apply Hinsert in H as (-> & t & price & -> & Hprice & Hins).
    split; [exact Hrole|]. split; [reflexivity|].
    exists dir, stored, pdf, t, price.
    do 4 (split; [first [reflexivity | assumption]|]). split; [|rewrite Hcover; exact Hins].
    intros c' Hc. congruence.
Qed.

(** The publication route never touches users, orders or purchases, and
    changes [books] only when it answers with the redirect. *)
Lemma new_book_frame (s : State) (sess : option SessionUser) (uuid : string)
    (title description price_ngn : option string) (parts : list FilePart) :
  let result := new_book' s sess uuid title description price_ngn parts in
  users result.1 = users s /\ orders result.1 = orders s /\
  purchases result.1 = purchases s /\
  (books result.1 = books s \/ exists loc, result.2 = Redirect loc).
Proof.
  cbv zeta. unfold new_book. split_matches; repeat split; auto;
    try (right; eexists; reflexivity);
    match goal with
    | H : insert_book _ _ = Ok _ |- _ =>
        apply insert_book_ok in H as (_ & _ & ->); reflexivity
    end.
Qed.

(** ** The upload *)

Lemma store_parts_snoc (dir : gmap string bytes) (parts : list FilePart) (f : FilePart) :
  store_parts dir (parts ++ [f]) = <[stored_name f := content f]> (store_parts dir parts).
Proof. unfold store_parts. now rewrite foldl_app. Qed.

Lemma named_parts_spec (parts : list FilePart) (f : FilePart) :
  f ∈ named_parts parts <-> f ∈ parts /\ originalname f <> "".
Proof.
  unfold named_parts. rewrite !list_elem_of_In, filter_In, negb_true_iff.
  now rewrite bool_decide_eq_false.
Qed.

Lemma named_parts_cons (f : FilePart) (parts : list FilePart) :
  named_parts (f :: parts)
  = if bool_decide (originalname f = "") then named_parts parts
    else f :: named_parts parts.
Proof. unfold named_parts. simpl. now destruct (bool_decide (originalname f = "")). Qed.

(** A successful upload has accepted and written every part of the form
    that came with a file name, and only those. *)
Lemma bookUpload_ok (parts : list FilePart) (dir dir' : gmap string bytes)
    (stored stored' : list StoredFile) :
  bookUpload' dir stored parts = (dir', Ok stored') ->
  stored' = (stored ++ (stored_of <$> named_parts parts))%list /\
  dir' = store_parts dir (named_parts parts) /\
  Forall (fun f => fileFilter' f = Ok tt /\
                   (size_of (content f) < MAX_PDF_SIZE)%Z) (named_parts parts) /\
  (NoDup (sf_fieldname <$> stored) -> NoDup (sf_fieldname <$> stored')) /\
  Forall (fun f => fieldname f = "pdf" \/ fieldname f = "cover") (named_parts parts).
Proof.
  revert dir stored. induction parts as [|f parts IH]; intros dir stored.
  - simpl. intros [= <- <-]. rewrite app_nil_r. repeat split; auto.
  - rewrite named_parts_cons. simpl.
    destruct (bool_decide (originalname f = "")); [apply IH|].
    destruct (bool_decide (fieldname f ∈ ["pdf"; "cover"])) eqn:Hfield; simpl;
      [|discriminate].
    destruct (existsb _ stored) eqn:Hcount; simpl; [discriminate|].
    destruct (fileFilter' f) as [[]|m] eqn:Hfilter; [|discriminate].
    destruct (MAX_PDF_SIZE <=? size_of (content f))%Z eqn:Hsize; [discriminate|].
    intros H. apply IH in H as (-> & -> & Hall & Hnd & Hfields).
    apply bool_decide_eq_true in Hfield. apply Z.leb_gt in Hsize.
    repeat split.
    + now rewrite <- app_assoc.
    + constructor; auto.
    + intros Hstored. apply Hnd.
      apply (NoDup_snoc_field sf_fieldname stored
               (mkStored (fieldname f) (part_uuid f +:+ extname (originalname f))
                  (size_of (content f)))); assumption.
    + constructor; [|exact Hfields].
      apply elem_of_cons in Hfield as [-> | Hfield]; [now left|].
      apply list_elem_of_singleton in Hfield. now right.
Qed.

(** A failed upload reports one of multer's four messages. *)
Lemma bookUpload_err (parts : list FilePart) (dir dir' : gmap string bytes)
    (stored : list StoredFile) (m : string) :
  bookUpload' dir stored parts = (dir', Err m) ->
  m ∈ ["Unexpected field"; "Invalid PDF file"; "Invalid cover image"; "File too large"].
Proof.
  revert dir stored. induction parts as [|f parts IH]; intros dir stored; simpl;
    [discriminate|].
  destruct (bool_decide (originalname f = "")); [apply IH|].
  destruct (negb _ || existsb _ stored); [intros [= _ <-]; set_solver|].
  destruct (fileFilter' f) as [[]|m'] eqn:Hfilter.
  - destruct (MAX_PDF_SIZE <=? size_of (content f))%Z; [intros [= _ <-]; set_solver|].
    apply IH.
  - intros [= _ <-]. revert Hfilter. unfold fileFilter.
    split_matches; intros [= <-]; set_solver.
Qed.

Lemma file_of_field_stored (field : string) (parts : list FilePart) (sf : StoredFile) :
  file_of_field field (stored_of <$> parts) = Some sf ->
  exists f, f ∈ parts /\ fieldname f = field /\ sf = stored_of f.
Proof.
  unfold file_of_field. intros H. apply find_some in H as [Hin Hf].
  apply bool_decide_eq_true in Hf.
  apply list_elem_of_In, list_elem_of_fmap in Hin as (f & -> & Hin).
  exists f. auto.
Qed.

Lemma file_of_field_none (field : string) (parts : list FilePart) (f : FilePart) :
  file_of_field field (stored_of <$> parts) = None ->
  f ∈ parts -> fieldname f <> field.
Proof.
  unfold file_of_field. intros H Hin Hf.
  pose proof (find_none _ _ H (stored_of f)) as Hn. simpl in Hn.
  rewrite bool_decide_eq_true_2 in Hn by exact Hf.
  discriminate Hn. apply list_elem_of_In, list_elem_of_fmap. now exists f.
Qed.

Lemma NoDup_fmap_eq {A B} (h : A -> B) (l : list A) (x y : A) :
  NoDup (h <$> l) -> x ∈ l -> y ∈ l -> h x = h y -> x = y.
Proof.
  induction l as [|z l IH]; simpl; intros Hnd Hx Hy Heq; [inversion Hx|].
  apply NoDup_cons in Hnd as [Hz Hnd].
  apply elem_of_cons in Hx as [-> | Hx]; apply elem_of_cons in Hy as [-> | Hy];
    auto.
  - contradict Hz. rewrite Heq. now apply list_elem_of_fmap_2.
  - contradict Hz. rewrite <- Heq. now apply list_elem_of_fmap_2.
Qed.

Lemma stored_fieldnames (parts : list FilePart) :
  sf_fieldname <$> (stored_of <$> parts) = fieldname <$> parts.
Proof. rewrite <- list_fmap_compose. reflexivity. Qed.

(** The file kept for a part of the form is the content of the last part
    written under its name. *)
Lemma store_parts_lookup (parts : list FilePart) (dir : gmap string bytes) (f : FilePart) :
  f ∈ parts ->
  (forall g, g ∈ parts -> stored_name g = stored_name f -> content g = content f) ->
  store_parts dir parts !! stored_name f = Some (content f).
Proof.
  induction parts as [|g parts IH] using rev_ind; intros Hin Hsame; [inversion Hin|].
  rewrite store_parts_snoc.
  destruct (decide (stored_name g = stored_name f)) as [Heq | Hne].
  - rewrite Heq, lookup_insert_eq. f_equal. apply Hsame; [|exact Heq].
    apply elem_of_app. right. now left.
  - rewrite lookup_insert_ne by exact Hne.
    apply elem_of_app in Hin as [Hin | Hin].
    + apply IH; [exact Hin|]. intros g' Hg'. apply Hsame, elem_of_app. now left.
    + apply list_elem_of_singleton in Hin. subst g. contradiction.
Qed.

Lemma store_parts_lookup_other (parts : list FilePart) (dir : gmap string bytes)
    (name : string) :
  (forall g, g ∈ parts -> stored_name g <> name) ->
  store_parts dir parts !! name = dir !! name.
Proof.
  induction parts as [|g parts IH] using rev_ind; intros Hother; [reflexivity|].
  rewrite store_parts_snoc, lookup_insert_ne.
  - apply IH. intros g' Hg'. apply Hother, elem_of_app. now left.
  - apply Hother, elem_of_app. right. now left.
Qed.

Lemma fileFilter_pdf (f : FilePart) :
  fileFilter' f = Ok tt -> fieldname f = "pdf" ->
  mimetype f = "application/pdf" /\ toLowerCase (extname (originalname f)) = ".pdf".
Proof.
  unfold fileFilter. intros H Hf. rewrite bool_decide_eq_true_2 in H by exact Hf.
  destruct (bool_decide (mimetype f = "application/pdf")) eqn:Hm; [|discriminate].
  destruct (bool_decide (toLowerCase (extname (originalname f)) = ".pdf")) eqn:He;
    [|discriminate].
  apply bool_decide_eq_true in Hm, He. auto.
Qed.

Lemma fileFilter_cover (f : FilePart) :
  fileFilter' f = Ok tt -> fieldname f = "cover" ->
  startsWith "image/" (mimetype f) = true /\
  toLowerCase (extname (originalname f)) ∈ [".png"; ".jpg"; ".jpeg"].
Proof.
  unfold fileFilter. intros H Hf. rewrite Hf in H.
  rewrite bool_decide_eq_false_2 in H by discriminate.
  rewrite bool_decide_eq_true_2 in H by reflexivity.
  destruct (startsWith "image/" (mimetype f)); [|discriminate].
  destruct (bool_decide (_ ∈ _)) eqn:He; [|discriminate].
  apply bool_decide_eq_true in He. auto.
Qed.

(** After a successful upload the directory holds, under the name of a part
    that no other part of the form shares, the content of that part. *)
Lemma bookUpload_files (parts : list FilePart) (dir dir' : gmap string bytes)
    (stored' : list StoredFile) (f : FilePart) :
  bookUpload' dir [] parts = (dir', Ok stored') ->
  f ∈ named_parts parts ->
  (forall g, g ∈ named_parts parts -> stored_name g = stored_name f -> g = f) ->
  dir' !! stored_name f = Some (content f).
Proof.
  intros Hup Hin Hnames.
  apply bookUpload_ok in Hup as (_ & -> & _).
  apply store_parts_lookup; [exact Hin|].
  intros g Hg Hname. now rewrite (Hnames g Hg Hname).
Qed.

(** ** Publication *)

Lemma find_snoc_fresh {A} (h : A -> string) (l : list A) (x : A) :
  existsb (fun y => bool_decide (h y = h x)) l = false ->
  find (fun y => bool_decide (h y = h x)) (l ++ [x]) = Some x.
Proof.
  induction l as [|y l IH]; simpl.
  - intros _. now rewrite bool_decide_eq_true_2.
  - destruct (bool_decide (h y = h x)); [discriminate | exact IH].
Qed.

(** X13. A publication that answers with the redirect was sent by a WRITER and
    came with a part in the field [pdf] that has a file name, declares the
    PDF media type, has an extension whose lower-case form is [.pdf], and is
    smaller than 10 MB.  The new book is found under the identifier of the
    redirect, has the sender as its author, the submitted title, the
    submitted description or none, and as its price the number parsed from
    the form (from ["0"] when the field is empty or missing).  The upload
    directory has gained the named parts of the form under the names drawn
    for them, and [pdf_path] names the file of that part: it holds exactly
    the bytes of the part when no other part was stored under its name. *)
Theorem published_book_intake (s s' : State) (user : SessionUser) (uuid loc : string)
    (title description price_ngn : option string) (parts : list FilePart) :
  new_book' s (Some user) uuid title description price_ngn parts = (s', Redirect loc) ->
  su_role user = "WRITER" /\ loc = "/books/" +:+ uuid /\
  exists f row,
    f ∈ parts /\ originalname f <> "" /\ fieldname f = "pdf" /\
    mimetype f = "application/pdf" /\
    toLowerCase (extname (originalname f)) = ".pdf" /\
    (size_of (content f) < MAX_PDF_SIZE)%Z /\
    select_book s' uuid = Some row /\
    book_author_id row = su_id user /\
    title = Some (book_title row) /\
    book_description row = description /\
    parseInt (if falsy price_ngn then "0" else default "0" price_ngn)
    = Some (book_price_ngn row) /\
    book_pdf_path row = part_uuid f +:+ extname (originalname f) /\
    uploads s' = store_parts (uploads s) (named_parts parts) /\
    ((forall g, g ∈ named_parts parts -> stored_name g = stored_name f -> g = f) ->
     uploads s' !! book_pdf_path row = Some (content f)).
Proof.
  intros H. apply new_book_redirect in H
    as (Hrole & -> & dir & stored & pdf & t & price
        & Hup & Hpdf & -> & Hprice & _ & Hins).
  split; [exact Hrole|]. split; [reflexivity|].
  pose proof (bookUpload_ok _ _ _ _ _ Hup) as (Hstored & Hdir & Hall & _ & _).
  simpl in Hstored. subst stored.
  apply file_of_field_stored in Hpdf as (f & Hin & Hfield & ->).
  rewrite Forall_forall in Hall. destruct (Hall f Hin) as [Hfilter Hsize].
  destruct (fileFilter_pdf f Hfilter Hfield) as [Hmime Hext].
  apply insert_book_ok in Hins as (Hfree & _ & ->).
  match type of Hfree with
  | book_id_taken _ (book_id ?r) = false => set (row := r) in *
  end.
  pose proof (proj1 (named_parts_spec parts f) Hin) as [Hpart Hname].
  exists f, row. repeat split; try assumption.
  - exact (find_snoc_fresh book_id (books s) row Hfree).
  - intros Hnames.
    cbn [uploads set_books set_uploads book_pdf_path stored_of sf_filename row].
    now apply (bookUpload_files parts (uploads s) dir _ f Hup).
Qed.

(** X14. The cover of a published book, when it has one: it came in the field
    [cover] with a file name, an image media type and an extension whose
    lower-case form is one of the three, is at most 2 MB, and [cover_path]
    names its file in the upload directory, which holds exactly its bytes
    when no other part was stored under its name. *)
Theorem published_cover_intake (s s' : State) (user : SessionUser) (uuid loc : string)
    (title description price_ngn : option string) (parts : list FilePart) :
  new_book' s (Some user) uuid title description price_ngn parts = (s', Redirect loc) ->
  exists row,
    select_book s' uuid = Some row /\
    forall c, book_cover_path row = Some c ->
      exists g,
        g ∈ parts /\ originalname g <> "" /\ fieldname g = "cover" /\
        startsWith "image/" (mimetype g) = true /\
        toLowerCase (extname (originalname g)) ∈ [".png"; ".jpg"; ".jpeg"] /\
        (size_of (content g) <= MAX_COVER_SIZE)%Z /\
        c = part_uuid g +:+ extname (originalname g) /\
        ((forall h, h ∈ named_parts parts -> stored_name h = stored_name g -> h = g) ->
         uploads s' !! c = Some (content g)).
Proof.
  intros H. apply new_book_redirect in H
    as (Hrole & -> & dir & stored & pdf & t & price
        & Hup & Hpdf & -> & _ & Hcsize & Hins).
  pose proof (bookUpload_ok _ _ _ _ _ Hup) as (Hstored & _ & Hall & _ & _).
  simpl in Hstored. subst stored.
  apply insert_book_ok in Hins as (Hfree & _ & ->).
  match type of Hfree with
  | book_id_taken _ (book_id ?r) = false => set (row := r) in *
  end.
  exists row. split.
  - exact (find_snoc_fresh book_id (books s) row Hfree).
  - cbn [book_cover_path row]. intros c Hc.
    destruct (file_of_field "cover" (stored_of <$> named_parts parts)) as [sc|] eqn:Hcover;
      [|discriminate].
    specialize (Hcsize sc eq_refl). apply Z.ltb_ge in Hcsize.
    destruct (falsy (Some (sf_filename sc))); [discriminate|].
    injection Hc as <-.
    apply file_of_field_stored in Hcover as (g & Hin & Hfield & ->).
    rewrite Forall_forall in Hall. destruct (Hall g Hin) as [Hfilter _].
    destruct (fileFilter_cover g Hfilter Hfield) as [Hmime Hext].
    pose proof (proj1 (named_parts_spec parts g) Hin) as [Hpart Hname].
    exists g. repeat split; auto.
    intros Hnames. cbn [uploads set_books set_uploads stored_of sf_filename].
    now apply (bookUpload_files parts (uploads s) dir _ g Hup).
Qed.

(** The handler's answers that are not the redirect come from before the
    insert. *)
Lemma new_book_render (s s' : State) (sess : option SessionUser) (uuid : string)
    (title description price_ngn : option string) (parts : list FilePart) (m : string) :
  new_book' s sess uuid title description price_ngn parts
  = (s', Render "new_book" (Some m)) ->
  (exists dir, bookUpload' (uploads s) [] parts = (dir, Err m) /\ s' = set_uploads s dir) \/
  (exists dir stored,
      bookUpload' (uploads s) [] parts = (dir, Ok stored) /\
      file_of_field "pdf" stored = None /\
      m = "PDF is required" /\ s' = set_uploads s dir) \/
  (exists dir stored pdf c,
      bookUpload' (uploads s) [] parts = (dir, Ok stored) /\
      file_of_field "pdf" stored = Some pdf /\
      file_of_field "cover" stored = Some c /\
      m = "Cover image too large" /\
      s' = set_uploads s (delete (sf_filename pdf) (delete (sf_filename c) dir))).
Proof.
  unfold new_book.
  destruct sess as [user|]; [|discriminate].
  destruct (negb (bool_decide (su_role user = "WRITER"))); [discriminate|].
  destruct (bookUpload' (uploads s) [] parts) as [dir [stored|m']] eqn:Hup.
  - destruct (file_of_field "pdf" stored) as [pdf|] eqn:Hpdf.
    + destruct (file_of_field "cover" stored) as [c|] eqn:Hcover.
      * destruct (MAX_COVER_SIZE <? sf_size c)%Z.
        -- intros [= <- <-]. right. right. exists dir, stored, pdf, c. auto.
        -- split_matches; discriminate.
      * split_matches; discriminate.
    + intros [= <- <-]. right. left. exists dir, stored. auto.
  - intros [= <- <-]. left. exists dir. auto.
Qed.

(** X15. When the cover is too large the handler unlinks both stored files: if
    the names drawn for the parts were not in use, the whole state is as it
    was before the request. *)
Theorem oversized_cover_leaves_nothing (s s' : State) (sess : option SessionUser)
    (uuid : string) (title description price_ngn : option string)
    (parts : list FilePart) :
  new_book' s sess uuid title description price_ngn parts
  = (s', Render "new_book" (Some "Cover image too large")) ->
  (forall f, f ∈ parts -> uploads s !! stored_name f = None) ->
  s' = s.
Proof.
  intros H Hfresh.
  apply new_book_render in H
    as [(dir & Herr & _) | [(? & ? & _ & _ & Hm & _) | (dir & stored & pdf & c & Hup & Hpdf & Hcover & _ & ->)]].
  - apply bookUpload_err in Herr.
    repeat (apply elem_of_cons in Herr as [Herr | Herr]; [discriminate|]).
    inversion Herr.
  - discriminate.
  - pose proof (bookUpload_ok _ _ _ _ _ Hup) as (Hstored & -> & _ & Hnd & Hfields).
    simpl in Hstored. subst stored.
    rewrite stored_fieldnames in Hnd. specialize (Hnd (NoDup_nil_2)).
    apply file_of_field_stored in Hpdf as (f & Hf & Hfp & ->).
    apply file_of_field_stored in Hcover as (g & Hg & Hgc & ->).
    replace (delete _ (delete _ (store_parts (uploads s) (named_parts parts))))
      with (uploads s); [now destruct s|].
    apply map_eq. intros k. cbn [sf_filename stored_of].
    destruct (decide (k = stored_name f)) as [-> | Hkf];
      [rewrite lookup_delete_eq; now apply Hfresh, named_parts_spec|].
    rewrite lookup_delete_ne by congruence.
    destruct (decide (k = stored_name g)) as [-> | Hkg];
      [rewrite lookup_delete_eq; now apply Hfresh, named_parts_spec|].
    rewrite lookup_delete_ne by congruence.
    symmetry. apply store_parts_lookup_other. intros h Hh Hname.
    rewrite Forall_forall in Hfields.
    destruct (Hfields h Hh) as [Hhp | Hhc].
    + apply Hkf. rewrite <- Hname. f_equal.
      apply (NoDup_fmap_eq fieldname (named_parts parts) h f Hnd Hh Hf). congruence.
    + apply Hkg. rewrite <- Hname. f_equal.
      apply (NoDup_fmap_eq fieldname (named_parts parts) h g Hnd Hh Hg). congruence.
Qed.

(** X16. A form without a file in the field [pdf] is refused with "PDF is
    required", also when it has a part for that field whose file name is
    empty.  What the form did upload stays: the handler returns before any
    unlink, so every part that came with a file name was a cover and is in
    the upload directory afterwards, and no book refers to it. *)
Theorem missing_pdf_keeps_cover (s s' : State) (sess : option SessionUser)
    (uuid : string) (title description price_ngn : option string)
    (parts : list FilePart) :
  new_book' s sess uuid title description price_ngn parts
  = (s', Render "new_book" (Some "PDF is required")) ->
  books s' = books s /\
  uploads s' = store_parts (uploads s) (named_parts parts) /\
  forall f, f ∈ parts -> originalname f <> "" ->
    fieldname f = "cover" /\ uploads s' !! stored_name f = Some (content f).
Proof.
  intros H.
  apply new_book_render in H
    as [(dir & Herr & _) | [(dir & stored & Hup & Hpdf & _ & ->) | (? & ? & ? & ? & _ & _ & _ & Hm & _)]].
  - apply bookUpload_err in Herr.
    repeat (apply elem_of_cons in Herr as [Herr | Herr]; [discriminate|]).
    inversion Herr.
  - split; [reflexivity|].
    pose proof (bookUpload_ok _ _ _ _ _ Hup) as (Hstored & Hdir & _ & Hnd & Hfields).
    simpl in Hstored. subst stored. split; [exact Hdir|].
    intros f Hf Hname.
    assert (Hin : f ∈ named_parts parts) by now apply named_parts_spec.
    rewrite stored_fieldnames in Hnd. specialize (Hnd (NoDup_nil_2)).
    rewrite Forall_forall in Hfields.
    assert (Hcovers : forall g, g ∈ named_parts parts -> fieldname g = "cover").
    { intros g Hg. destruct (Hfields g Hg) as [Hgp | Hgc]; [|exact Hgc].
      exfalso. now apply (file_of_field_none "pdf" (named_parts parts) g Hpdf). }
    split; [now apply Hcovers|].
    cbn [uploads set_uploads].
    apply (bookUpload_files parts (uploads s) dir _ f Hup Hin).
    intros g Hg _.
    apply (NoDup_fmap_eq fieldname (named_parts parts) g f Hnd Hg Hin).
    now rewrite (Hcovers g Hg), (Hcovers f Hin).
  - discriminate.
Qed.

End Publication.

(** ** What one request can change *)

(** ** The name of a copy *)

Lemma string_app_length (a b : string) :
  String.length (a +:+ b) = String.length a + String.length b.
Proof. induction a as [|c a IH]; simpl; [reflexivity | now rewrite IH]. Qed.

Lemma string_app_inj_length (a a' x x' : string) :
  String.length a = String.length a' ->
  a +:+ x = a' +:+ x' -> a = a' /\ x = x'.
Proof.
  revert a'. induction a as [|c a IH]; intros [|c' a']; simpl; try discriminate.
  - auto.
  - intros [= Hlen] [= -> Heq]. destruct (IH a' Hlen Heq) as [-> ->]. auto.
Qed.

Lemma string_app_inj_r (x y a : string) : x +:+ a = y +:+ a -> x = y.
Proof.
  intros H. apply (string_app_inj_length x y a a); [|exact H].
  apply (f_equal String.length) in H. rewrite !string_app_length in H. lia.
Qed.

(** X12. Two (buyer, book) pairs whose buyer identifiers have the same length, as
    all values of [uuidv4()] do, have different file names unless they are
    the same pair. *)
Theorem artifact_name_injective (buyer buyer' book book' : string) :
  String.length buyer = String.length buyer' ->
  artifact_name buyer book = artifact_name buyer' book' ->
  buyer = buyer' /\ book = book'.
Proof.
  unfold artifact_name. intros Hlen H.
  apply string_app_inj_length in H as [-> H]; [|exact Hlen].
  split; [reflexivity|].
  apply (string_app_inj_length "_" "_") in H as [_ H]; [|reflexivity].
  now apply string_app_inj_r in H.
Qed.

(** Without that the names can collide. *)
Example artifact_name_collision : artifact_name "a_b" "c" = artifact_name "a" "b_c".
Proof. reflexivity. Qed.

Section Requests.

Variable toLowerCase : string -> string.
Variable bcrypt_hash : string -> string -> string.
Variable bcrypt_compare : string -> string -> bool.
Variable PDFDocument_load : bytes -> option PDFDoc.
Variable PDFWriter_serialize : PDFDoc -> bytes.
Variable Helvetica_encodes : string -> bool.

Local Abbreviation PDFDocument_save' := (PDFDocument_save PDFWriter_serialize).
Local Abbreviation buy' := (buy PDFDocument_load PDFWriter_serialize Helvetica_encodes).
Local Abbreviation prepare_copy' :=
  (prepare_copy PDFDocument_load PDFWriter_serialize Helvetica_encodes).
Local Abbreviation new_book' := (new_book toLowerCase).
Local Abbreviation handle' :=
  (handle toLowerCase bcrypt_hash bcrypt_compare PDFDocument_load PDFWriter_serialize
     Helvetica_encodes).
Local Abbreviation run' :=
  (run toLowerCase bcrypt_hash bcrypt_compare PDFDocument_load PDFWriter_serialize
     Helvetica_encodes).

(** A property that every request keeps holds along every run. *)
Lemma run_invariant (P : State -> Prop) :
  (forall s sess r, P s -> P (handle' s sess r).1.1) ->
  forall rs s, P s -> P (run' s rs).
Proof.
  intros Hstep rs. induction rs as [|[sess r] rs IH]; intros s H; simpl; [exact H|].
  apply IH, Hstep, H.
Qed.

(** The users table after a request: as before, or with one new row whose
    identifier and email were free and whose role is one of the two. *)
Lemma handle_users_insert (s : State) (sess : option SessionUser) (r : Request) :
  users (handle' s sess r).1.1 = users s \/
  exists row,
    user_id_taken s (user_id row) = false /\
    email_taken s (user_email row) = false /\
    (user_role row = "WRITER" \/ user_role row = "READER") /\
    users (handle' s sess r).1.1 = (users s ++ [row])%list.
Proof.
  destruct r as [uuid salt name email password role | email password next |
                 | uuid title description price_ngn parts | id | id uuid w
                 | bookId | name | name];
    simpl; try now left.
  - destruct (register_cases toLowerCase bcrypt_hash s sess uuid salt name email password role)
      as [-> | (row & Hins & Hrole)]; [now left|].
    apply insert_user_ok in Hins as (Hid & Hemail & ->).
    right. exists row. auto.
  - left. now rewrite login_state.
  - left.
    pose proof (new_book_users toLowerCase s sess uuid title description price_ngn parts)
      as H.
    now destruct (new_book _ _ _ _ _ _ _ _).
  - left. pose proof (buy_frame PDFDocument_load PDFWriter_serialize Helvetica_encodes
                        s sess id uuid w) as (H & _).
    now destruct (buy _ _ _ _ _ _ _ _).
Qed.

(** The books table after a request: as before, or with one new row, and
    then the request is a publication by a session user whose role is
    WRITER; the row has the identifier drawn for it, which was free, and
    that user as its author. *)
Lemma handle_books_insert (s : State) (sess : option SessionUser) (r : Request) :
  books (handle' s sess r).1.1 = books s \/
  exists user uuid title description price_ngn parts row,
    r = POST_new_book uuid title description price_ngn parts /\
    sess = Some user /\ su_role user = "WRITER" /\
    book_id row = uuid /\ book_author_id row = su_id user /\
    book_id_taken s uuid = false /\ user_id_taken s (su_id user) = true /\
    books (handle' s sess r).1.1 = (books s ++ [row])%list.
Proof.
  destruct r as [uuid salt name email password role | email password next |
                 | uuid title description price_ngn parts | id | id uuid w
                 | bookId | name | name];
    simpl; try now left.
  - left.
    destruct (register_cases toLowerCase bcrypt_hash s sess uuid salt name email password role)
      as [-> | (row & Hins & _)]; [reflexivity|].
    now apply insert_user_ok in Hins as (_ & _ & ->).
  - left. now rewrite login_state.
  - destruct (new_book' s sess uuid title description price_ngn parts)
      as [s' resp] eqn:Hnew. simpl.
    pose proof (new_book_frame toLowerCase s sess uuid title description price_ngn parts)
      as (_ & _ & _ & Hbooks).
    rewrite Hnew in Hbooks. simpl in Hbooks.
    destruct Hbooks as [Hsame | [loc ->]]; [now left|].
    destruct sess as [user|]; [|simpl in Hnew; now injection Hnew as <- _; left].
    apply new_book_redirect in Hnew
      as (Hrole & _ & dir & stored & pdf & t & price & _ & _ & _ & _ & _ & Hins).
    apply insert_book_ok in Hins as (Hid & Hauthor & ->).
    right. exists user, uuid, title, description, price_ngn, parts. eexists.
    split; [reflexivity|]. split; [reflexivity|]. split; [exact Hrole|].
    split; [|split; [|split; [exact Hid|split; [exact Hauthor|reflexivity]]]];
      reflexivity.
  - left. pose proof (buy_frame PDFDocument_load PDFWriter_serialize Helvetica_encodes
                        s sess id uuid w) as (_ & H & _).
    now destruct (buy _ _ _ _ _ _ _ _).
Qed.

(** The orders table after a request: as before, or with one new PAID row,
    and then the request is a purchase by a session user, the row is for
    that user and the book of the request, its identifier and pair were
    free, and buyer and book exist. *)
Lemma handle_orders_insert (s : State) (sess : option SessionUser) (r : Request) :
  orders (handle' s sess r).1.1 = orders s \/
  exists user id uuid w,
    r = POST_buy id uuid w /\ sess = Some user /\
    order_id_taken s uuid = false /\ order_pair_taken s (su_id user) id = false /\
    user_id_taken s (su_id user) = true /\ book_id_taken s id = true /\
    orders (handle' s sess r).1.1
    = (orders s ++ [mkOrder uuid (su_id user) id "PAID"])%list.
Proof.
  destruct r as [uuid salt name email password role | email password next |
                 | uuid title description price_ngn parts | id | id uuid w
                 | bookId | name | name];
    simpl; try now left.
  - left.
    destruct (register_cases toLowerCase bcrypt_hash s sess uuid salt name email password role)
      as [-> | (row & Hins & _)]; [reflexivity|].
    now apply insert_user_ok in Hins as (_ & _ & ->).
  - left. now rewrite login_state.
  - left.
    pose proof (new_book_orders toLowerCase s sess uuid title description price_ngn parts)
      as H.
    now destruct (new_book _ _ _ _ _ _ _ _).
  - destruct (buy' s sess id uuid w) as [s' resp] eqn:Hbuy. simpl.
    destruct sess as [user|]; [|simpl in Hbuy; injection Hbuy as <- _; now left].
    destruct (select_book s id) as [book|] eqn:Hbook;
      [|unfold buy in Hbuy; rewrite Hbook in Hbuy; injection Hbuy as <- _; now left].
    pose proof (buy_existing_orders PDFDocument_load PDFWriter_serialize Helvetica_encodes
                  s user id uuid w book Hbook) as H.
    rewrite Hbuy in H. simpl in H.
    destruct (record_order_cases s (su_id user) id uuid)
      as [Hsame | (H1 & H2 & H3 & H4 & Hnew)].
    + left. now rewrite H, Hsame.
    + right. exists user, id, uuid, w. rewrite H, Hnew. auto 10.
Qed.

Lemma handle_tables_grow (s : State) (sess : option SessionUser) (r : Request) :
  users s `prefix_of` users (handle' s sess r).1.1 /\
  books s `prefix_of` books (handle' s sess r).1.1 /\
  orders s `prefix_of` orders (handle' s sess r).1.1.
Proof.
  split; [|split].
  - destruct (handle_users_insert s sess r) as [-> | (row & _ & _ & _ & ->)];
      [reflexivity | now exists [row]].
  - destruct (handle_books_insert s sess r)
      as [-> | (? & ? & ? & ? & ? & ? & row & _ & _ & _ & _ & _ & _ & _ & ->)];
      [reflexivity | now exists [row]].
  - destruct (handle_orders_insert s sess r)
      as [-> | (? & ? & ? & ? & _ & _ & _ & _ & _ & _ & ->)];
      [reflexivity | now eexists].
Qed.

Lemma run_tables_grow (rs : list (option SessionUser * Request)) (s : State) :
  users s `prefix_of` users (run' s rs) /\
  books s `prefix_of` books (run' s rs) /\
  orders s `prefix_of` orders (run' s rs).
Proof.
  revert s. induction rs as [|[sess r] rs IH]; intros s; simpl; [auto|].
  destruct (handle_tables_grow s sess r) as (Hu & Hb & Ho).
  destruct (IH (handle' s sess r).1.1) as (Hu' & Hb' & Ho').
  repeat split; etrans; eauto.
Qed.

Lemma taken_prefix {A} (f : A -> string) (l l' : list A) (k : string) :
  l `prefix_of` l' ->
  existsb (fun y => bool_decide (f y = k)) l = true ->
  existsb (fun y => bool_decide (f y = k)) l' = true.
Proof. intros [more ->] H. now rewrite existsb_app, H. Qed.

(** ** Rows are kept *)

(** X1. No request deletes or rewrites a row: along any run each table keeps
    the rows it had, in their order, and only gains rows at its end. *)
Theorem rows_never_removed (rs : list (option SessionUser * Request)) (s : State) :
  users s `prefix_of` users (run' s rs) /\
  books s `prefix_of` books (run' s rs) /\
  orders s `prefix_of` orders (run' s rs).
Proof.
  revert s. induction rs as [|[sess r] rs IH]; intros s; simpl; [auto|].
  destruct (handle_tables_grow s sess r) as (Hu & Hb & Ho).
  destruct (IH (handle' s sess r).1.1) as (Hu' & Hb' & Ho').
  repeat split; etrans; eauto.
Qed.

(** X2. Ownership is never revoked: a buyer who owns a book owns it after any
    further requests of anyone. *)
Theorem ownership_never_revoked (rs : list (option SessionUser * Request)) (s : State)
    (buyer book : string) :
  ownsBook s buyer book = true -> ownsBook (run' s rs) buyer book = true.
Proof.
  intros Hown. destruct (run_tables_grow rs s) as (_ & _ & [more Hmore]).
  unfold ownsBook in *. now rewrite Hmore, existsb_app, Hown.
Qed.

(** X3. Ownership is granted by a purchase only, and only to its sender: when a
    request changes the answer of the ownership test for some buyer and
    book, it is a POST of [/buy/<that book>] sent with the session of that
    buyer. *)
Theorem ownership_granted_by_own_purchase (s : State) (sess : option SessionUser)
    (r : Request) (buyer book : string) :
  ownsBook (handle' s sess r).1.1 buyer book <> ownsBook s buyer book ->
  exists user uuid w,
    r = POST_buy book uuid w /\ sess = Some user /\ su_id user = buyer /\
    ownsBook s buyer book = false /\ ownsBook (handle' s sess r).1.1 buyer book = true.
Proof.
  intros Hchange.
  destruct (handle_orders_insert s sess r)
    as [Hsame | (user & id & uuid & w & -> & -> & _ & _ & _ & _ & Hnew)].
  - contradict Hchange. unfold ownsBook. now rewrite Hsame.
  - unfold ownsBook in *. rewrite Hnew, existsb_app in *. simpl in *.
    destruct (existsb _ (orders s)) eqn:Hold; simpl in *; [now contradict Hchange|].
    rewrite orb_false_r in *.
    destruct (bool_decide (su_id user = buyer)) eqn:Hb; simpl in *;
      [|now contradict Hchange].
    destruct (bool_decide (id = book)) eqn:Hk; simpl in *; [|now contradict Hchange].
    apply bool_decide_eq_true in Hb, Hk. subst.
    exists user, uuid, w. auto.
Qed.

(** ** Requests without a session *)

(** X4. A request that carries no session can create an account and nothing
    else: books, orders and both directories are as before. *)
Theorem anonymous_request_frame (s : State) (r : Request) :
  books (handle' s None r).1.1 = books s /\
  orders (handle' s None r).1.1 = orders s /\
  uploads (handle' s None r).1.1 = uploads s /\
  purchases (handle' s None r).1.1 = purchases s.
Proof.
  destruct r as [uuid salt name email password role | email password next |
                 | uuid title description price_ngn parts | id | id uuid w
                 | bookId | name | name];
    simpl; auto.
  - destruct (register_cases toLowerCase bcrypt_hash s None uuid salt name email password role)
      as [-> | (row & Hins & _)]; [auto|].
    now apply insert_user_ok in Hins as (_ & _ & ->).
  - now rewrite login_state.
Qed.

(** ** Who can publish *)

(** X5. The books table changes only through the publication route, sent with
    the session of a user whose role is WRITER; the new row has that user as
    its author. *)
Theorem publication_needs_writer (s : State) (sess : option SessionUser) (r : Request) :
  books (handle' s sess r).1.1 <> books s ->
  exists user uuid title description price_ngn parts row,
    r = POST_new_book uuid title description price_ngn parts /\
    sess = Some user /\ su_role user = "WRITER" /\
    book_id row = uuid /\ book_author_id row = su_id user /\
    books (handle' s sess r).1.1 = (books s ++ [row])%list.
Proof.
  intros Hchange.
  destruct (handle_books_insert s sess r)
    as [Hsame | (user & uuid & t & d & p & parts & row & Hr & Hs & Hrole & Hid & Ha & _ & _ & Hb)];
    [contradiction|].
  exists user, uuid, t, d, p, parts, row. auto 10.
Qed.

(** ** The purchases directory *)

Lemma buy_purchases_other (s : State) (user : SessionUser) (id uuid : string)
    (w : WriteOutcome) (name : string) :
  name <> artifact_name (su_id user) id ->
  purchases (buy' s (Some user) id uuid w).1 !! name = purchases s !! name.
Proof.
  intros Hname.
  destruct (select_book s id) as [book|] eqn:Hbook.
  - destruct (select_book_some _ _ _ Hbook) as (_ & Hid & _).
    rewrite (buy_existing _ _ _ _ _ _ _ _ _ Hbook), Hid. cbv zeta.
    destruct (record_order_frame s (su_id user) id uuid) as (_ & _ & _ & Hpur).
    destruct (prepare_copy' s book (su_email user) uuid) as [copy|e];
      [|cbn [fst]; now rewrite Hpur].
    destruct w; cbn [writeFile fst set_purchases purchases];
      rewrite ?lookup_insert_ne by congruence; reflexivity.
  - unfold buy. now rewrite Hbook.
Qed.

(** X6. Only a purchase writes to the purchases directory, and it writes only
    the file of its own (buyer, book) pair: every other file is as before,
    after every request. *)
Theorem purchases_written_by_own_purchase (s : State) (sess : option SessionUser)
    (r : Request) (name : string) :
  purchases (handle' s sess r).1.1 !! name <> purchases s !! name ->
  exists user id uuid w,
    r = POST_buy id uuid w /\ sess = Some user /\
    name = artifact_name (su_id user) id /\ is_Some (select_book s id).
Proof.
  intros Hchange.
  destruct r as [uuid salt name' email password role | email password next |
                 | uuid title description price_ngn parts | id | id uuid w
                 | bookId | name' | name'];
    simpl in Hchange; try now contradict Hchange.
  - contradict Hchange.
    destruct (register_cases toLowerCase bcrypt_hash s sess uuid salt name' email password role)
      as [-> | (row & Hins & _)]; [reflexivity|].
    now apply insert_user_ok in Hins as (_ & _ & ->).
  - contradict Hchange. now rewrite login_state.
  - contradict Hchange.
    pose proof (new_book_frame toLowerCase s sess uuid title description price_ngn parts)
      as (_ & _ & H & _).
    destruct (new_book _ _ _ _ _ _ _ _). simpl in *. now rewrite H.
  - destruct sess as [user|]; [|now contradict Hchange].
    destruct (decide (name = artifact_name (su_id user) id)) as [-> | Hne].
    + exists user, id, uuid, w. repeat split; auto.
      destruct (select_book s id) eqn:Hbook; [eauto|].
      contradict Hchange. unfold buy. now rewrite Hbook.
    + contradict Hchange.
      pose proof (buy_purchases_other s user id uuid w name Hne) as H.
      now destruct (buy _ _ _ _ _ _ _ _).
Qed.

(** ** Constraints of the schema along a run *)

Lemma handle_keys_unique (s : State) (sess : option SessionUser) (r : Request) :
  keys_unique s -> keys_unique (handle' s sess r).1.1.
Proof.
  intros (Hu & Hb & Ho). unfold keys_unique. split; [|split].
  - destruct (handle_users_insert s sess r) as [-> | (row & Hid & _ & _ & ->)];
      [exact Hu | now apply NoDup_snoc_field].
  - destruct (handle_books_insert s sess r)
      as [-> | (? & uuid & ? & ? & ? & ? & row & _ & _ & _ & Hid & _ & Hfree & _ & ->)];
      [exact Hb|].
    apply NoDup_snoc_field; [exact Hb|]. rewrite Hid. exact Hfree.
  - destruct (handle_orders_insert s sess r)
      as [-> | (? & ? & uuid & ? & _ & _ & Hfree & _ & _ & _ & ->)];
      [exact Ho | now apply NoDup_snoc_field].
Qed.

Lemma handle_references_hold (s : State) (sess : option SessionUser) (r : Request) :
  references_hold s -> references_hold (handle' s sess r).1.1.
Proof.
  intros (Hb & Ho).
  destruct (handle_tables_grow s sess r) as (Pu & Pb & _).
  assert (Hkeep_u : forall k, user_id_taken s k = true ->
                              user_id_taken (handle' s sess r).1.1 k = true)
    by (intros k; apply taken_prefix, Pu).
  assert (Hkeep_b : forall k, book_id_taken s k = true ->
                              book_id_taken (handle' s sess r).1.1 k = true)
    by (intros k; apply taken_prefix, Pb).
  split.
  - assert (Hold : Forall (fun b => user_id_taken (handle' s sess r).1.1
                                      (book_author_id b) = true) (books s))
      by (eapply Forall_impl; [exact Hb | intros b; apply Hkeep_u]).
    destruct (handle_books_insert s sess r)
      as [-> | (? & ? & ? & ? & ? & ? & row & _ & _ & _ & _ & Ha & _ & Hreg & ->)];
      [exact Hold|].
    apply Forall_app. split; [exact Hold|]. constructor; [|constructor].
    apply Hkeep_u. now rewrite Ha.
  - assert (Hold : Forall (fun o =>
                user_id_taken (handle' s sess r).1.1 (order_buyer_id o) = true /\
                book_id_taken (handle' s sess r).1.1 (order_book_id o) = true) (orders s))
      by (eapply Forall_impl; [exact Ho | intros o [? ?]; split; auto]).
    destruct (handle_orders_insert s sess r)
      as [-> | (? & ? & ? & ? & _ & _ & _ & _ & Hreg & Hbook & ->)];
      [exact Hold|].
    apply Forall_app. split; [exact Hold|]. constructor; [|constructor].
    simpl. split; auto.
Qed.

Lemma handle_roles_valid (s : State) (sess : option SessionUser) (r : Request) :
  roles_valid s -> roles_valid (handle' s sess r).1.1.
Proof.
  intros H. unfold roles_valid.
  destruct (handle_users_insert s sess r) as [-> | (row & _ & _ & Hrole & ->)];
    [exact H|].
  apply Forall_app. split; [exact H | now constructor].
Qed.

(** X7. The keys and references of the schema hold along every run: primary
    keys are unique in each table, every book has a registered author, every
    order has a registered buyer and an existing book, no (buyer, book) pair
    has two orders, and every order is PAID. *)
Theorem schema_constraints_kept (rs : list (option SessionUser * Request)) (s : State) :
  keys_unique s /\ references_hold s /\ order_pairs_unique s /\ orders_paid s ->
  keys_unique (run' s rs) /\ references_hold (run' s rs) /\
  order_pairs_unique (run' s rs) /\ orders_paid (run' s rs).
Proof.
  intros (Hk & Hr & Hu & Hp).
  split; [|split].
  - revert Hk. apply run_invariant. intros. now apply handle_keys_unique.
  - revert Hr. apply run_invariant. intros. now apply handle_references_hold.
  - now apply run_orders_invariant.
Qed.

(** X8. The users table along every run: every stored email is the
    lower-case form [toLowerCase] gave for a submitted email, no two rows
    have the same email, and every role is WRITER or READER. *)
Theorem users_table_invariant (rs : list (option SessionUser * Request)) (s : State) :
  emails_lowercase toLowerCase s /\ emails_unique s /\ roles_valid s ->
  emails_lowercase toLowerCase (run' s rs) /\ emails_unique (run' s rs) /\
  roles_valid (run' s rs).
Proof.
  intros (Hl & Hu & Hr).
  destruct (run_emails_invariant toLowerCase bcrypt_hash bcrypt_compare PDFDocument_load
              PDFWriter_serialize Helvetica_encodes rs s (conj Hl Hu)) as [Hl' Hu'].
  repeat split; auto.
  revert Hr. apply run_invariant. intros. now apply handle_roles_valid.
Qed.

(** X9. The session a request leaves its sender with names a row of [users],
    if the session it came with did, and keeps doing so whatever requests
    follow: register and login store the identifier of a row, and rows are
    kept. *)
Theorem session_user_stays_registered (s : State) (sess : option SessionUser)
    (r : Request) (rs : list (option SessionUser * Request)) :
  session_registered s sess ->
  session_registered (run' (handle' s sess r).1.1 rs) (handle' s sess r).1.2.
Proof.
  intros Hsess.
  pose proof (handle_session_registered toLowerCase bcrypt_hash bcrypt_compare
                PDFDocument_load PDFWriter_serialize Helvetica_encodes s sess r Hsess) as H.
  destruct ((handle' s sess r).1.2) as [user|]; [|exact I].
  simpl in *. revert H. apply taken_prefix.
  apply (run_tables_grow rs (handle' s sess r).1.1).
Qed.

(** ** Registration *)

(** X17. A registration succeeds exactly when email and password are both given
    and not empty, the identifier drawn for the row is free and no row has
    the lower-case form [toLowerCase] gives for the email; when it does not
    succeed, the database and the session of the sender are as before. *)
Theorem registration_outcome (s : State) (sess : option SessionUser) (uuid salt : string)
    (name email password role : option string) :
  let result := register toLowerCase bcrypt_hash s sess uuid salt name email password role in
  (result.2 = Redirect "/" <->
   exists e pw, email = Some e /\ password = Some pw /\ e <> "" /\ pw <> "" /\
                user_id_taken s uuid = false /\
                email_taken s (toLowerCase e) = false) /\
  (result.2 <> Redirect "/" -> result.1 = (s, sess)).
Proof.
  cbv zeta. unfold register, insert_user. cbn [user_id user_email].
  destruct email as [e|]; [|split; [split; [discriminate | intros (? & ? & [=] & _)] | reflexivity]].
  destruct password as [pw|];
    [|split; [split; [discriminate | intros (? & ? & _ & [=] & _)] | reflexivity]].
  unfold falsy.
  destruct (bool_decide (e = "")) eqn:He; simpl.
  { apply bool_decide_eq_true in He.
    split; [split; [discriminate | intros (? & ? & [= <-] & _ & Hne & _); contradiction]
           | reflexivity]. }
  destruct (bool_decide (pw = "")) eqn:Hpw; simpl.
  { apply bool_decide_eq_true in Hpw.
    split; [split; [discriminate | intros (? & ? & _ & [= <-] & _ & Hne & _); contradiction]
           | reflexivity]. }
  apply bool_decide_eq_false in He, Hpw.
  destruct (user_id_taken s uuid) eqn:Hid; simpl.
  { split; [split; [discriminate | intros (? & ? & _ & _ & _ & _ & [=] & _)] | reflexivity]. }
  destruct (email_taken s (toLowerCase e)) eqn:Hemail; simpl.
  { split; [split; [discriminate | intros (? & ? & [= <-] & _ & _ & _ & _ & H); congruence]
           | reflexivity]. }
  split; [|intros H; now contradict H].
  split; [|reflexivity]. intros _. exists e, pw. auto 10.
Qed.

(** ** The detail page and the download gate *)

(** X18. The book page and the download route ask the same question of the
    orders table: for a session user the page shows the book as owned
    exactly when the download route does not refuse that user, and without
    a session the page never shows it as owned. *)
Theorem detail_and_download_agree (s : State) (sess : option SessionUser) (id : string)
    (book : BookRow) (author_name : string) (owns : bool) :
  book_detail s sess id = RenderBookDetail book author_name owns ->
  select_book s id = Some book /\
  match sess with
  | None => owns = false
  | Some user =>
      owns = true <-> download s sess id <> Status 403 "You do not own this book"
  end.
Proof.
  unfold book_detail, download.
  destruct (select_book s id) as [b|] eqn:Hbook; [|discriminate].
  destruct (select_book_some _ _ _ Hbook) as (_ & Hid & _).
  destruct (find _ (users s)) as [author|]; [|discriminate].
  intros [= -> _ <-]. split; [reflexivity|].
  destruct sess as [user|]; [|reflexivity].
  rewrite Hid.
  destruct (ownsBook s (su_id user) id); simpl.
  - split; [|reflexivity]. intros _.
    destruct (purchases s !! artifact_name (su_id user) id); discriminate.
  - split; [discriminate|]. intros H. now contradict H.
Qed.

(** ** Purchase, then download *)

Lemma record_order_owns (s : State) (buyer book uuid : string) :
  orders_paid s ->
  user_id_taken s buyer = true ->
  book_id_taken s book = true ->
  order_id_taken s uuid = false ->
  ownsBook (record_order s buyer book uuid) buyer book = true.
Proof.
  intros Hpaid Hu Hb Hfresh.
  unfold record_order, insert_or_ignore_order. cbn [order_id order_buyer_id order_book_id].
  rewrite Hfresh, Hu, Hb. simpl.
  destruct (order_pair_taken s buyer book) eqn:Hpair.
  - apply ownsBook_spec.
    unfold order_pair_taken in Hpair. apply existsb_exists in Hpair as (o & Hin & Ho).
    apply andb_prop in Ho as [Ho1 Ho2]. apply bool_decide_eq_true in Ho1, Ho2.
    exists o. apply list_elem_of_In in Hin. repeat split; auto.
    unfold orders_paid in Hpaid. rewrite Forall_forall in Hpaid. now apply Hpaid.
  - unfold ownsBook. cbn [orders set_orders]. rewrite existsb_app. simpl.
    rewrite !bool_decide_eq_true_2 by reflexivity. simpl. now rewrite orb_true_r.
Qed.

(** X10. After a purchase of an existing book by a registered buyer, whatever its
    outcome, the download route never refuses that buyer: it sends the file
    at the path of the pair, or answers "not ready" when there is none.
    When the purchase answered with the redirect, the file it sends is the
    copy that purchase prepared. *)
Theorem buy_then_download (s : State) (user : SessionUser) (id uuid : string)
    (w : WriteOutcome) (book : BookRow) :
  orders_paid s ->
  user_id_taken s (su_id user) = true ->
  order_id_taken s uuid = false ->
  select_book s id = Some book ->
  let result := buy' s (Some user) id uuid w in
  match purchases result.1 !! artifact_name (su_id user) id with
  | Some file => download result.1 (Some user) id = Download file "your-book.pdf"
  | None => download result.1 (Some user) id = Status 404 "Your copy is not ready"
  end /\
  (result.2 = Redirect "/library" ->
   exists copy,
     prepare_copy' s book (su_email user) uuid = Ok copy /\
     download result.1 (Some user) id = Download copy "your-book.pdf").
Proof.
  intros Hpaid Hreg Hfresh Hbook result.
  destruct (select_book_some _ _ _ Hbook) as (_ & _ & Htaken).
  assert (Hown : ownsBook result.1 (su_id user) id = true).
  { pose proof (record_order_owns s (su_id user) id uuid Hpaid Hreg Htaken Hfresh) as H.
    unfold ownsBook in *. subst result.
    now rewrite (buy_existing_orders PDFDocument_load PDFWriter_serialize Helvetica_encodes
                   s user id uuid w book Hbook). }
  assert (Hdl : download result.1 (Some user) id
                = match purchases result.1 !! artifact_name (su_id user) id with
                  | Some file => Download file "your-book.pdf"
                  | None => Status 404 "Your copy is not ready"
                  end).
  { unfold download. rewrite Hown. reflexivity. }
  split.
  - rewrite Hdl. now destruct (purchases result.1 !! _).
  - intros Hresp.
    pose proof (buy_outcome PDFDocument_load PDFWriter_serialize Helvetica_encodes
                  s user id uuid w book Hbook) as Hout.
    fold result in Hout.
    destruct (prepare_copy' s book (su_email user) uuid) as [copy|e];
      [|rewrite Hresp in Hout; discriminate].
    destruct w; try (rewrite Hresp in Hout; discriminate).
    destruct Hout as [_ Hfile]. exists copy. split; [reflexivity|].
    now rewrite Hdl, Hfile.
Qed.

(** ** Why a copy is not prepared *)

Lemma stamp_pages_not_encodable (font : Font) (text : string) (p : PDFPage)
    (pages : list PDFPage) :
  Helvetica_encodes text = false ->
  mapM (stamp_page Helvetica_encodes font text) (p :: pages) = Err EncodingError.
Proof.
  intros Henc. simpl. unfold stamp_page, drawText, getSize. simpl.
  now rewrite Henc.
Qed.

(** X11. The outcome of preparing a copy, by cause: the source file is missing,
    it does not parse, or the document has a page and the font cannot encode
    the text.  A document without pages is saved with the font embedded even
    when the text cannot be encoded, since nothing is drawn. *)
Theorem prepare_copy_outcome (s : State) (book : BookRow) (email uuid : string) :
  prepare_copy' s book email uuid =
  match uploads s !! book_pdf_path book with
  | None => Err StorageFailure
  | Some src =>
      match PDFDocument_load src with
      | None => Err CorruptSource
      | Some doc =>
          let text := watermark_text email (book_title book) uuid in
          if match doc_pages doc with [] => true | _ :: _ => Helvetica_encodes text end
          then Ok (PDFDocument_save'
                     (mkDoc (stamped_page Helvetica text <$> doc_pages doc)
                            (doc_fonts doc ++ [Helvetica])))
          else Err EncodingError
      end
  end.
Proof.
  destruct (uploads s !! book_pdf_path book) as [src|] eqn:Hsrc;
    [|unfold prepare_copy, readFile; now rewrite Hsrc].
  destruct (PDFDocument_load src) as [doc|] eqn:Hload;
    [|unfold prepare_copy, readFile; rewrite Hsrc; simpl; now rewrite Hload].
  cbv zeta.
  destruct (Helvetica_encodes (watermark_text email (book_title book) uuid)) eqn:Henc.
  - rewrite (prepare_copy_succeeds _ _ _ _ _ _ _ _ _ Hsrc Hload Henc).
    now destruct (doc_pages doc).
  - unfold prepare_copy, readFile. rewrite Hsrc. simpl. rewrite Hload. simpl.
    unfold getPages. simpl.
    destruct (doc_pages doc) as [|p pages]; [reflexivity|].
    now rewrite (stamp_pages_not_encodable _ _ _ _ Henc).
Qed.

End Requests.

(** * Scenarios *)

Example catalog_contents :
  users catalog
  = [mkUser writer_id "ada@example.com" "correct horse$s1" "Ada" "WRITER";
     mkUser reader_id "bola@example.com" "battery staple$s2" "Bola" "READER"] /\
  books catalog
  = [tales] /\
  orders catalog = [] /\
  uploads catalog !! (tales_file +:+ ".PDF") = Some tales_pdf.
Proof. vm_compute. repeat split. Qed.

Example after_purchase_contents :
  orders after_purchase = [mkOrder first_order reader_id tales_id "PAID"] /\
  purchases after_purchase !! artifact_name reader_id tales_id
  = Some [Byte.x25; Byte.x2b; Byte.x2b] /\
  orders after_failed_purchase = [mkOrder first_order reader_id tales_id "PAID"] /\
  purchases after_failed_purchase !! artifact_name reader_id tales_id = None.
Proof. vm_compute. repeat split. Qed.

(** C1. The upload directory holds the source documents under the names the
    books table records, and the two static mounts serve any file of that
    directory to any client.  In the sample catalog nobody has an order; the
    download route refuses the reader, and a request without any session
    gets the bytes of the source through [/files] and through [/covers]. *)
Theorem source_served_without_order :
  select_book catalog tales_id
  = Some tales /\
  orders catalog = [] /\
  sample_handle catalog (Some reader_session) (GET_download tales_id)
  = (catalog, Some reader_session, Status 403 "You do not own this book") /\
  sample_handle catalog None (GET_files (tales_file +:+ ".PDF"))
  = (catalog, None, SendFile tales_pdf) /\
  sample_handle catalog None (GET_covers (tales_file +:+ ".PDF"))
  = (catalog, None, SendFile tales_pdf).
Proof. vm_compute. repeat split. Qed.

(** C3 fails on the code.  The reader holds a complete copy; a second
    purchase whose write fails after one byte answers with the 500, and the
    file of the pair is now that one byte, which is what the download route
    sends. *)
Lemma partial_write_replaces_copy :
  let result :=
    sample_buy after_purchase (Some reader_session) tales_id second_order (FailsAfter 1) in
  purchases after_purchase !! artifact_name reader_id tales_id
  = Some [Byte.x25; Byte.x2b; Byte.x2b] /\
  result.2 = Status 500 "Failed to prepare purchase" /\
  purchases result.1 !! artifact_name reader_id tales_id = Some [Byte.x25] /\
  download result.1 (Some reader_session) tales_id
  = Download [Byte.x25] "your-book.pdf".
Proof. vm_compute. repeat split. Qed.

(** ** The lossless stand-in *)

Lemma of_binary_digits_inv (n : positive) : of_binary_digits (binary_digits n) = n.
Proof. induction n as [n IH | n IH |]; simpl; now rewrite ?IH. Qed.

Lemma repr_Q_inv (q : Q) : repr_Q (Q_repr q) = q.
Proof. now destruct q. Qed.

Lemma repr_options_inv (o : DrawTextOptions) : repr_options (options_repr o) = o.
Proof.
  destruct o as [x y size [] [[red green] blue] opacity].
  unfold options_repr, repr_options. simpl. now rewrite !repr_Q_inv.
Qed.

Lemma repr_op_inv (op : ContentOp) : repr_op (op_repr op) = op.
Proof.
  destruct op as [stream | | | text o]; cbn [op_repr repr_op]; try reflexivity.
  - f_equal. rewrite <- list_fmap_compose.
    rewrite <- (list_fmap_id stream) at 2. apply list_fmap_ext.
    intros i b _. simpl. now rewrite Byte.of_to_N.
  - now rewrite repr_options_inv.
Qed.

Lemma repr_page_inv (p : PDFPage) : repr_page (page_repr p) = p.
Proof.
  destruct p as [w h [streams|]]; unfold repr_page, page_repr; simpl;
    rewrite !repr_Q_inv; [|reflexivity].
  do 2 f_equal. rewrite <- list_fmap_compose.
  rewrite <- (list_fmap_id streams) at 2. apply list_fmap_ext.
  intros i op _. apply repr_op_inv.
Qed.

(** The reader finds the pages the writer was given. *)
Lemma lossless_round_trip (d : PDFDoc) :
  doc_pages <$> lossless_load (lossless_serialize d) = Some (doc_pages d).
Proof.
  unfold lossless_load, lossless_serialize.
  rewrite of_binary_digits_inv, decode_encode. simpl. f_equal.
  rewrite <- list_fmap_compose.
  rewrite <- (list_fmap_id (doc_pages d)) at 2. apply list_fmap_ext.
  intros i p _. apply repr_page_inv.
Qed.

Lemma shelf_source (source : PDFDoc) :
  select_book (shelf source) tales_id = Some tales /\
  uploads (shelf source) !! book_pdf_path tales = Some (lossless_serialize source).
Proof. split; [reflexivity | apply lookup_insert_eq]. Qed.

(** C7 fails on the code for a source without pages.  The source of the
    book is a document that has no page.  The purchase answers with the
    redirect, and the copy it wrote has one page: the blank page [save]
    adds, which has no content stream, so nothing is drawn on it. *)
Lemma empty_source_gains_blank_page :
  let s := shelf empty_source in
  let result := lossless_buy s (Some reader_session) tales_id first_order Completes in
  doc_pages <$> (uploads s !! book_pdf_path tales ≫= lossless_load) = Some [] /\
  result.2 = Redirect "/library" /\
  doc_pages <$> (purchases result.1 !! artifact_name reader_id tales_id ≫= lossless_load)
  = Some [default_page] /\
  page_contents default_page = None.
Proof.
  cbv zeta. destruct (shelf_source empty_source) as [Hbook Hsrc].
  split; [rewrite Hsrc; apply (lossless_round_trip empty_source)|].
  pose proof (buy_outcome lossless_load lossless_serialize sample_encodes
                (shelf empty_source) reader_session tales_id first_order Completes
                tales Hbook) as H.
  assert (Hcopy : prepare_copy lossless_load lossless_serialize sample_encodes
                    (shelf empty_source) tales (su_email reader_session) first_order
                  = Ok (lossless_serialize (mkDoc [default_page] []))).
  { unfold prepare_copy, readFile. rewrite Hsrc. cbn [rbind].
    pose proof (lossless_round_trip empty_source) as Hrt.
    destruct (lossless_load (lossless_serialize empty_source)) as [[pages fonts]|];
      [|discriminate].
    injection Hrt as ->. reflexivity. }
  rewrite Hcopy in H. destruct H as [Hresp Hfile]. unfold lossless_buy.
  split; [exact Hresp|]. split; [|reflexivity].
  change (su_id reader_session) with reader_id in Hfile. rewrite Hfile.
  apply (lossless_round_trip (mkDoc [default_page] [])).
Qed.

(** ** The theorems at the sample data *)

Lemma catalog_orders_invariant : order_pairs_unique catalog /\ orders_paid catalog.
Proof. apply run_orders_invariant, init_orders_invariant. Qed.

Lemma purchase_twice_one_order_witness :
  let first :=
    sample_buy catalog (Some reader_session) tales_id first_order FailsBeforeOpen in
  let second := sample_buy first.1 (Some reader_session) tales_id second_order Completes in
  length (orders_of first.1 reader_id tales_id) = 1 /\
  length (orders_of second.1 reader_id tales_id) = 1 /\
  first.2 = Status 500 "Failed to prepare purchase" /\
  second.2 = Redirect "/library" /\
  purchases second.1 !! artifact_name reader_id tales_id
  = Some [Byte.x25; Byte.x2b; Byte.x2b].
Proof.
  pose proof (purchase_twice_one_order sample_load sample_serialize sample_encodes
                catalog reader_session tales_id first_order second_order
                FailsBeforeOpen Completes tales
                (proj1 catalog_orders_invariant) eq_refl eq_refl eq_refl) as W.
  cbv zeta in W. destruct W as (Hone & Htwo & Hfirst & Hsecond).
  assert (Hcopy1 : prepare_copy sample_load sample_serialize sample_encodes catalog tales
                     (su_email reader_session) first_order
                   = Ok [Byte.x25; Byte.x2b; Byte.x2b])
    by (vm_compute; reflexivity).
  assert (Hcopy2 : prepare_copy sample_load sample_serialize sample_encodes catalog tales
                     (su_email reader_session) second_order
                   = Ok [Byte.x25; Byte.x2b; Byte.x2b])
    by (vm_compute; reflexivity).
  rewrite Hcopy1 in Hfirst. rewrite Hcopy2 in Hsecond. destruct Hsecond as [Hresp Hfile].
  cbv zeta. unfold sample_buy. repeat split; assumption.
Defined.

Lemma download_forbidden_without_order_witness :
  let s := set_purchases catalog {[ artifact_name reader_id tales_id := tales_pdf ]} in
  purchases s !! artifact_name reader_id tales_id = Some tales_pdf /\
  download s (Some reader_session) tales_id = Status 403 "You do not own this book".
Proof.
  cbv zeta. split; [vm_compute; reflexivity|].
  apply download_forbidden_without_order.
  intros o Ho. apply list_elem_of_In in Ho. vm_compute in Ho. destruct Ho.
Defined.

Lemma download_owner_not_ready_witness :
  download after_failed_purchase (Some reader_session) tales_id
  = Status 404 "Your copy is not ready".
Proof.
  assert (Hown : exists o, o ∈ orders after_failed_purchase /\
                   order_buyer_id o = su_id reader_session /\
                   order_book_id o = tales_id /\ order_status o = "PAID").
  { exists (mkOrder first_order reader_id tales_id "PAID").
    split; [apply list_elem_of_In; vm_compute; auto | repeat split]. }
  pose proof (download_owner_not_ready after_failed_purchase reader_session tales_id Hown) as W.
  assert (Hnone : purchases after_failed_purchase
                    !! artifact_name (su_id reader_session) tales_id = None)
    by (vm_compute; reflexivity).
  rewrite Hnone in W. exact W.
Defined.

Lemma buy_failure_contract_witness :
  let result :=
    sample_buy catalog (Some reader_session) tales_id first_order (FailsAfter 1) in
  ownsBook result.1 reader_id tales_id = true /\
  length (orders_of result.1 reader_id tales_id) = 1 /\
  result.2 = Status 500 "Failed to prepare purchase".
Proof.
  pose proof (buy_failure_contract sample_load sample_serialize sample_encodes
                catalog reader_session tales_id first_order (FailsAfter 1)
                (proj2 catalog_orders_invariant) (proj1 catalog_orders_invariant)
                eq_refl eq_refl) as W.
  assert (Hbook : select_book catalog tales_id
                  = Some tales)
    by (vm_compute; reflexivity).
  rewrite Hbook in W. cbv zeta in W.
  destruct W as (Hown & Hone & Hresp).
  assert (Hcopy : prepare_copy sample_load sample_serialize sample_encodes catalog
                    tales
                    (su_email reader_session) first_order
                  = Ok [Byte.x25; Byte.x2b; Byte.x2b])
    by (vm_compute; reflexivity).
  rewrite Hcopy in Hresp.
  cbv zeta. repeat split; assumption.
Defined.

Lemma prepared_copy_keeps_pages_witness :
  let text := watermark_text "bola@example.com" "Tales" first_order in
  exists out doc',
    prepare_copy lossless_load lossless_serialize sample_encodes (shelf mixed_source)
      tales "bola@example.com" first_order
    = Ok out /\
    lossless_load out = Some doc' /\
    doc_pages doc'
    = [mkPage 612 792
         (Some [PushGraphicsState; SourceContent [Byte.x50]; PopGraphicsState;
                DrawnText text (watermark_options Helvetica)]);
       mkPage 792 612 (Some [DrawnText text (watermark_options Helvetica)])].
Proof.
  intros text. destruct (shelf_source mixed_source) as [_ Hsrc].
  destruct (prepare_copy lossless_load lossless_serialize sample_encodes
              (shelf mixed_source) tales "bola@example.com" first_order)
    as [out|e] eqn:Hcopy.
  - destruct (prepared_copy_keeps_pages lossless_load lossless_serialize sample_encodes
                (shelf mixed_source) tales "bola@example.com" first_order out
                lossless_round_trip Hcopy)
      as (src & doc & doc' & Hsrc' & Hload & Hout & Hpages).
    rewrite Hsrc in Hsrc'. injection Hsrc' as <-.
    pose proof (lossless_round_trip mixed_source) as Hrt.
    rewrite Hload in Hrt. injection Hrt as Hdoc.
    rewrite Hdoc in Hpages. cbn [doc_pages mixed_source] in Hpages.
    destruct Hpages as [Hlen Hpage].
    exists out, doc'. split; [reflexivity|]. split; [exact Hout|].
    destruct (Hpage 0 _ eq_refl) as (p0 & Hp0 & Hs0 & Hc0).
    destruct (Hpage 1 _ eq_refl) as (p1 & Hp1 & Hs1 & Hc1).
    destruct (doc_pages doc') as [|q0 [|q1 [|q2 rest]]];
      [discriminate Hp0 | discriminate Hp1 | | discriminate Hlen].
    injection Hp0 as ->. injection Hp1 as ->.
    destruct p0 as [w0 h0 c0], p1 as [w1 h1 c1].
    injection Hs0 as -> ->. injection Hs1 as -> ->.
    cbn [page_contents] in Hc0, Hc1. now rewrite Hc0, Hc1.
  - exfalso.
    pose proof (lossless_round_trip mixed_source) as Hrt.
    destruct (lossless_load (lossless_serialize mixed_source)) as [doc|] eqn:Hload;
      [|discriminate Hrt].
    assert (Henc : sample_encodes
                     (watermark_text "bola@example.com" (book_title tales) first_order)
                   = true) by (vm_compute; reflexivity).
    rewrite (prepare_copy_succeeds lossless_load lossless_serialize sample_encodes
               (shelf mixed_source) tales "bola@example.com" first_order
               _ doc Hsrc Hload Henc) in Hcopy.
    discriminate Hcopy.
Defined.



Lemma repeat_purchase_watermark_id_witness :
  let result :=
    sample_buy after_purchase (Some reader_session) tales_id second_order Completes in
  orders result.1 = [mkOrder first_order reader_id tales_id "PAID"] /\
  purchases result.1 !! artifact_name reader_id tales_id
  = Some [Byte.x25; Byte.x2b; Byte.x2b] /\
  watermark_text "bola@example.com" "Tales" first_order
  <> watermark_text "bola@example.com" "Tales" second_order.
Proof.
  assert (Hin : mkOrder first_order reader_id tales_id "PAID" ∈ orders after_purchase)
    by (apply list_elem_of_In; vm_compute; auto).
  pose proof (repeat_purchase_watermark_id sample_load sample_serialize sample_encodes
                after_purchase reader_session tales_id second_order
                tales
                (mkOrder first_order reader_id tales_id "PAID")
                [Byte.x25; Byte.x2b; Byte.x2b]
                eq_refl Hin eq_refl eq_refl eq_refl eq_refl) as W.
  cbv zeta in W. destruct W as (Horders & Hfile & _ & Hids).
  cbv zeta. unfold sample_buy. split; [|split].
  - rewrite Horders. vm_compute. reflexivity.
  - exact Hfile.
  - apply (Hids (mkOrder first_order reader_id tales_id "PAID")).
    rewrite Horders. exact Hin.
Defined.

(** ** The further properties at the sample data *)

Lemma ownership_never_revoked_witness :
  ownsBook
    (sample_run after_purchase
       [ (None, POST_logout);
         (Some writer_session, POST_buy tales_id second_order (FailsAfter 1));
         (None, POST_register second_order "s3" None (Some "cy@example.com")
                  (Some "pw") None) ])
    reader_id tales_id = true.
Proof.
  apply (ownership_never_revoked sample_toLowerCase sample_hash sample_compare
             sample_load
           sample_serialize sample_encodes).
  vm_compute. reflexivity.
Defined.

Lemma ownership_granted_by_own_purchase_witness :
  exists user uuid w,
    POST_buy tales_id first_order Completes = POST_buy tales_id uuid w /\
    Some reader_session = Some user /\ su_id user = reader_id.
Proof.
  destruct (ownership_granted_by_own_purchase sample_toLowerCase sample_hash sample_compare
             sample_load
              sample_serialize sample_encodes catalog (Some reader_session)
              (POST_buy tales_id first_order Completes) reader_id tales_id)
    as (user & uuid & w & Hr & Hs & Hid & _).
  - vm_compute. discriminate.
  - exists user, uuid, w. auto.
Defined.

Lemma publication_needs_writer_witness :
  exists user row,
    Some writer_session = Some user /\ su_role user = "WRITER" /\
    book_author_id row = su_id user /\
    books (sample_handle writer_registered (Some writer_session)
             (POST_new_book tales_id (Some "Tales") (Some "Short stories") (Some "1500")
                [tales_part])).1.1
    = [row].
Proof.
  destruct (publication_needs_writer sample_toLowerCase sample_hash sample_compare
             sample_load
              sample_serialize sample_encodes writer_registered (Some writer_session)
              (POST_new_book tales_id (Some "Tales") (Some "Short stories") (Some "1500")
                 [tales_part]))
    as (user & uuid & t & d & p & parts & row & _ & Hs & Hrole & _ & Ha & Hb).
  - vm_compute. discriminate.
  - exists user, row. auto.
Defined.

Lemma purchases_written_by_own_purchase_witness :
  exists user id uuid w,
    POST_buy tales_id first_order Completes = POST_buy id uuid w /\
    Some reader_session = Some user /\
    artifact_name reader_id tales_id = artifact_name (su_id user) id.
Proof.
  destruct (purchases_written_by_own_purchase sample_toLowerCase sample_hash sample_compare
             sample_load
              sample_serialize sample_encodes catalog (Some reader_session)
              (POST_buy tales_id first_order Completes)
              (artifact_name reader_id tales_id))
    as (user & id & uuid & w & Hr & Hs & Hname & _).
  - vm_compute. discriminate.
  - exists user, id, uuid, w. auto.
Defined.

Lemma init_schema_constraints :
  keys_unique init /\ references_hold init /\ order_pairs_unique init /\ orders_paid init.
Proof.
  split; [repeat split; constructor|]. split; [split; constructor|].
  apply init_orders_invariant.
Qed.

Lemma schema_constraints_kept_witness :
  keys_unique after_purchase /\ references_hold after_purchase /\
  order_pairs_unique after_purchase /\ orders_paid after_purchase.
Proof.
  apply (schema_constraints_kept sample_toLowerCase sample_hash sample_compare
             sample_load sample_serialize
           sample_encodes
           [(Some reader_session, POST_buy tales_id first_order Completes)] catalog).
  apply (schema_constraints_kept sample_toLowerCase sample_hash sample_compare
             sample_load sample_serialize
           sample_encodes _ init).
  exact init_schema_constraints.
Defined.

Lemma users_table_invariant_witness :
  emails_lowercase sample_toLowerCase catalog /\ emails_unique catalog /\ roles_valid catalog.
Proof.
  apply (users_table_invariant sample_toLowerCase sample_hash sample_compare
             sample_load sample_serialize
           sample_encodes _ init).
  repeat split; constructor.
Defined.

Lemma session_user_stays_registered_witness :
  session_registered
    (sample_run
       (sample_handle catalog (Some reader_session)
          (POST_login (Some "ADA@example.com") (Some "correct horse") None)).1.1
       [(None, POST_logout)])
    (Some writer_session).
Proof.
  apply (session_user_stays_registered sample_toLowerCase sample_hash sample_compare
             sample_load sample_serialize
           sample_encodes catalog (Some reader_session)
           (POST_login (Some "ADA@example.com") (Some "correct horse") None)
           [(None, POST_logout)]).
  vm_compute. reflexivity.
Defined.

Lemma buy_then_download_witness :
  download (sample_buy catalog (Some reader_session) tales_id first_order Completes).1
    (Some reader_session) tales_id
  = Download [Byte.x25; Byte.x2b; Byte.x2b] "your-book.pdf".
Proof.
  destruct (buy_then_download sample_load sample_serialize sample_encodes catalog
              reader_session tales_id first_order Completes tales
              (proj2 catalog_orders_invariant) eq_refl eq_refl eq_refl) as [_ H].
  destruct H as (copy & Hcopy & Hdl); [vm_compute; reflexivity|].
  assert (Hc : prepare_copy sample_load sample_serialize sample_encodes catalog tales
                 (su_email reader_session) first_order
               = Ok [Byte.x25; Byte.x2b; Byte.x2b]) by (vm_compute; reflexivity).
  rewrite Hc in Hcopy. injection Hcopy as <-. exact Hdl.
Defined.

Lemma artifact_name_injective_witness :
  String.length reader_id = String.length writer_id /\
  (artifact_name reader_id tales_id = artifact_name reader_id tales_id ->
   reader_id = reader_id /\ tales_id = tales_id).
Proof.
  split; [reflexivity|].
  apply (artifact_name_injective reader_id reader_id tales_id tales_id). reflexivity.
Defined.

Lemma published_book_intake_witness :
  exists row,
    select_book catalog tales_id = Some row /\
    book_author_id row = writer_id /\
    book_description row = Some "Short stories" /\
    book_price_ngn row = Finite 1500 /\
    uploads catalog !! book_pdf_path row = Some tales_pdf.
Proof.
  destruct (published_book_intake sample_toLowerCase writer_registered
              (sample_run writer_registered
                 [(Some writer_session,
                   POST_new_book tales_id (Some "Tales") (Some "Short stories")
                     (Some "1500") [tales_part])])
              writer_session tales_id ("/books/" +:+ tales_id)
              (Some "Tales") (Some "Short stories") (Some "1500") [tales_part])
    as (_ & _ & f & row & Hf & _ & _ & _ & _ & _ & Hsel & Ha & _ & Hd & Hp & _ & _ & Hfile).
  - vm_compute. reflexivity.
  - apply list_elem_of_singleton in Hf. subst f.
    assert (Hrow : select_book catalog tales_id = Some row).
    { rewrite <- Hsel. vm_compute. reflexivity. }
    vm_compute in Hp. injection Hp as Hp.
    exists row. repeat split; [exact Hrow | exact Ha | exact Hd | now symmetry |].
    etrans; [|apply Hfile]; [f_equal|].
    intros g Hg _. change (g ∈ [tales_part]) in Hg.
    now apply list_elem_of_singleton in Hg.
Defined.

Lemma published_cover_intake_witness :
  let result :=
    new_book sample_toLowerCase writer_registered (Some writer_session) tales_id
      (Some "Tales") None None [cover_part; tales_part] in
  exists row,
    select_book result.1 tales_id = Some row /\
    book_description row = None /\
    book_cover_path row = Some (cover_file +:+ ".Jpg") /\
    uploads result.1 !! (cover_file +:+ ".Jpg") = Some [Byte.xff; Byte.xd8; Byte.xff].
Proof.
  intros result.
  destruct (published_cover_intake sample_toLowerCase writer_registered result.1
              writer_session tales_id
              ("/books/" +:+ tales_id) (Some "Tales") None None
              [cover_part; tales_part])
    as (row & Hsel & Hcover).
  - vm_compute. reflexivity.
  - assert (H : select_book result.1 tales_id
                = Some (mkBook tales_id writer_id "Tales" None (Finite 0)
                          (tales_file +:+ ".PDF") (Some (cover_file +:+ ".Jpg"))))
      by (vm_compute; reflexivity).
    rewrite H in Hsel. injection Hsel as <-.
    exists (mkBook tales_id writer_id "Tales" None (Finite 0)
              (tales_file +:+ ".PDF") (Some (cover_file +:+ ".Jpg"))).
    split; [exact H|]. split; [reflexivity|]. split; [reflexivity|].
    destruct (Hcover _ eq_refl) as (g & Hg & _ & _ & _ & _ & _ & Hname & Hfile).
    assert (Hcov : g = cover_part).
    { apply elem_of_cons in Hg as [-> | Hg]; [reflexivity|].
      apply list_elem_of_singleton in Hg. subst g. vm_compute in Hname. discriminate. }
    subst g. apply Hfile.
    intros h Hh Hsame. change (h ∈ [cover_part; tales_part]) in Hh.
    apply elem_of_cons in Hh as [-> | Hh]; [reflexivity|].
    apply list_elem_of_singleton in Hh. subst h. vm_compute in Hsame. discriminate.
Defined.

Lemma missing_pdf_keeps_cover_witness :
  let result :=
    new_book sample_toLowerCase writer_registered (Some writer_session) tales_id
      (Some "Tales") (Some "Short stories") None [empty_pdf_input; cover_part] in
  result.2 = Render "new_book" (Some "PDF is required") /\
  books result.1 = [] /\
  uploads result.1 !! (cover_file +:+ ".Jpg") = Some [Byte.xff; Byte.xd8; Byte.xff].
Proof.
  intros result.
  assert (Hresp : result.2 = Render "new_book" (Some "PDF is required"))
    by (vm_compute; reflexivity).
  destruct (missing_pdf_keeps_cover sample_toLowerCase writer_registered result.1
              (Some writer_session)
              tales_id (Some "Tales") (Some "Short stories") None
              [empty_pdf_input; cover_part])
    as (Hbooks & _ & Hfiles).
  - rewrite <- Hresp. apply surjective_pairing.
  - split; [exact Hresp|]. split; [exact Hbooks|].
    destruct (Hfiles cover_part) as [_ H]; [right; left | discriminate | exact H].
Defined.

Lemma oversized_cover_leaves_nothing_witness :
  let result :=
    new_book sample_toLowerCase writer_registered (Some writer_session) tales_id
      (Some "Tales") (Some "Short stories") None [tales_part; oversized_cover_part] in
  result.2 = Render "new_book" (Some "Cover image too large") /\
  result.1 = writer_registered.
Proof.
  intros result.
  assert (Hresp : result.2 = Render "new_book" (Some "Cover image too large"))
    by (vm_compute; reflexivity).
  split; [exact Hresp|].
  apply (oversized_cover_leaves_nothing sample_toLowerCase writer_registered result.1
           (Some writer_session)
           tales_id (Some "Tales") (Some "Short stories") None
           [tales_part; oversized_cover_part]).
  - rewrite <- Hresp. apply surjective_pairing.
  - intros f Hf.
    apply elem_of_cons in Hf as [-> | Hf]; [vm_compute; reflexivity|].
    apply list_elem_of_singleton in Hf. subst f. vm_compute. reflexivity.
Defined.

Lemma detail_and_download_agree_witness :
  book_detail after_purchase (Some reader_session) tales_id
  = RenderBookDetail tales "Ada" true /\
  download after_purchase (Some reader_session) tales_id
  <> Status 403 "You do not own this book".
Proof.
  assert (H : book_detail after_purchase (Some reader_session) tales_id
              = RenderBookDetail tales "Ada" true) by (vm_compute; reflexivity).
  split; [exact H|].
  destruct (detail_and_download_agree after_purchase (Some reader_session) tales_id
              tales "Ada" true H) as [_ Hagree].
  now apply Hagree.
Defined.
